(** * SnarfX: a shallow embedding of the dependency-tracking engine

    Sources embedded here: [_anchor.py] (the arena dictionaries),
    [_tracking.py] (evaluation context, batch depth, pending set, flush),
    [observable.py] ([Observable]), [computed.py] ([Computed]),
    [reaction.py] ([Reaction], [_DataReaction], [autorun], [reaction]),
    [action.py] ([action] / [transaction]) and, built on the public
    operations of these, [store.py] and [hot_reload.py] ([Store],
    [HotReloadStore]).

    Python callables wrapped by derivations are represented by a small
    command tree ([prog]); the engine itself is a pair of fuel-indexed
    interpreters ([exec] for user code, [run] for [derivation._run()]).
    Python sets are lists without duplicates, iterated in insertion order.
    The cross-thread marshal of [Observable.set] is not configured
    ([_scheduler is None]), so [set] is [_set_direct]. *)

From stdpp Require Import gmap list strings.

Open Scope Z_scope.

(** ** Python values *)

(** The payload of an object; [PNaN] stands for any value that is not equal
    to itself under [==], [PUnset] for the [_UNSET] sentinel of
    [computed.py], [PRef] for a handle object holding an [_id]. *)
Inductive payload :=
  | PNone
  | PUnset
  | PInt (z : Z)
  | PNaN
  | PRef (n : nat).

(** An object is its identity (what [is] compares) and its payload. *)
Record val := mkVal { ident : nat; data : payload }.

Definition vNone : val := mkVal 0 PNone.
Definition vUnset : val := mkVal 1 PUnset.
Definition vRef (n : nat) : val := mkVal (2 + 2 * n) (PRef n).
Definition vInt (z : Z) : val :=
  mkVal (3 + 2 * Z.to_nat (if z <? 0 then - (2 * z) - 1 else 2 * z)) (PInt z).

(** [a is b] *)
Definition py_is (a b : val) : bool := Nat.eqb (ident a) (ident b).

(** [a == b] *)
Definition py_eq (a b : val) : bool :=
  match data a, data b with
  | PNone, PNone => true
  | PUnset, PUnset => true
  | PInt x, PInt y => Z.eqb x y
  | PRef x, PRef y => Nat.eqb x y
  | _, _ => false
  end.

(** [a != b] *)
Definition py_ne (a b : val) : bool := negb (py_eq a b).

(** ** Python sets of node ids *)

Definition set_add (x : nat) (l : list nat) : list nat :=
  if decide (x ∈ l) then l else l ++ [x].

Definition set_discard (x : nat) (l : list nat) : list nat :=
  filter (λ y, y ≠ x) l.

(** ** User code *)

(** The class of the handle that was minted with a given [_id]. *)
Inductive kind := KObservable | KComputed | KReaction | KDataReaction.

Global Instance kind_eq_dec : EqDecision kind.
Proof. solve_decision. Defined.

(** A Python callable, as the tree of engine calls it performs. *)
Inductive prog :=
  | Ret (v : val)
  | Raise
  | Bind (c : cmd) (k : val → prog)
with cmd :=
  | NewObservable (v : val)
  | NewComputed (fn : prog)
  | Autorun (fn : prog)
  | NewReaction (data_fn : prog) (effect_fn : val → prog) (fire_immediately : bool)
  | Get (o : nat)
  | Set_ (o : nat) (v : val)
  | CGet (c : nat)
  | CDispose (c : nat)
  | RDispose (r : nat)
  | BeginBatch
  | EndBatch
  | Transaction (body : prog)
  | GetPendingCount
  | Log (vs : list val).

(** ** Observation

    What an execution did, recorded in order. Only [EvLog] corresponds to
    something user code does (appending to a list, as the tests do); the
    other events are instrumentation of the engine. *)
Inductive event :=
  | EvLog (vs : list val)         (* user code logged [vs] *)
  | EvCall (d : nat)              (* the wrapped function of [d] was invoked *)
  | EvEffect (d : nat) (v : val)  (* the effect function of [d] was invoked on [v] *)
  | EvRead (d n : nat)            (* [n.get()] was called while [d] was evaluating *)
  | EvDetach (d : nat)            (* the cleanup block of [d] ran *)
  | EvDispose (c : nat).          (* [Computed.dispose] cleared [c]'s observers *)

(** ** The arena and the tracking globals *)

Record state := mkState {
  (* _anchor.py *)
  values : gmap nat val;
  observers : gmap nat (list nat);
  dependencies : gmap nat (list nat);
  dirty_flags : gmap nat bool;
  cached_values : gmap nat val;
  derivation_fns : gmap nat prog;
  disposed : gmap nat bool;
  id_counter : nat;
  (* slots of _DataReaction instances, keyed by _id *)
  effect_fns : gmap nat (val → prog);
  last_value : gmap nat val;
  initialized : gmap nat bool;
  (* class of each handle *)
  kinds : gmap nat kind;
  (* _tracking.py *)
  current_derivation : option nat;
  batch_depth : Z;
  pending : list nat;
  (* observation of the run, not part of the Python state *)
  trace : list event
}.

Definition initial_state : state :=
  mkState ∅ ∅ ∅ ∅ ∅ ∅ ∅ 1 ∅ ∅ ∅ ∅ None 0 [] [].

Definition with_values (x : gmap nat val) (s : state) : state :=
  mkState x (observers s) (dependencies s) (dirty_flags s) (cached_values s)
    (derivation_fns s) (disposed s) (id_counter s) (effect_fns s) (last_value s)
    (initialized s) (kinds s) (current_derivation s) (batch_depth s) (pending s)
    (trace s).
Definition with_observers (x : gmap nat (list nat)) (s : state) : state :=
  mkState (values s) x (dependencies s) (dirty_flags s) (cached_values s)
    (derivation_fns s) (disposed s) (id_counter s) (effect_fns s) (last_value s)
    (initialized s) (kinds s) (current_derivation s) (batch_depth s) (pending s)
    (trace s).
Definition with_dependencies (x : gmap nat (list nat)) (s : state) : state :=
  mkState (values s) (observers s) x (dirty_flags s) (cached_values s)
    (derivation_fns s) (disposed s) (id_counter s) (effect_fns s) (last_value s)
    (initialized s) (kinds s) (current_derivation s) (batch_depth s) (pending s)
    (trace s).
Definition with_dirty_flags (x : gmap nat bool) (s : state) : state :=
  mkState (values s) (observers s) (dependencies s) x (cached_values s)
    (derivation_fns s) (disposed s) (id_counter s) (effect_fns s) (last_value s)
    (initialized s) (kinds s) (current_derivation s) (batch_depth s) (pending s)
    (trace s).
Definition with_cached_values (x : gmap nat val) (s : state) : state :=
  mkState (values s) (observers s) (dependencies s) (dirty_flags s) x
    (derivation_fns s) (disposed s) (id_counter s) (effect_fns s) (last_value s)
    (initialized s) (kinds s) (current_derivation s) (batch_depth s) (pending s)
    (trace s).
Definition with_derivation_fns (x : gmap nat prog) (s : state) : state :=
  mkState (values s) (observers s) (dependencies s) (dirty_flags s) (cached_values s)
    x (disposed s) (id_counter s) (effect_fns s) (last_value s)
    (initialized s) (kinds s) (current_derivation s) (batch_depth s) (pending s)
    (trace s).
Definition with_disposed (x : gmap nat bool) (s : state) : state :=
  mkState (values s) (observers s) (dependencies s) (dirty_flags s) (cached_values s)
    (derivation_fns s) x (id_counter s) (effect_fns s) (last_value s)
    (initialized s) (kinds s) (current_derivation s) (batch_depth s) (pending s)
    (trace s).
Definition with_id_counter (x : nat) (s : state) : state :=
  mkState (values s) (observers s) (dependencies s) (dirty_flags s) (cached_values s)
    (derivation_fns s) (disposed s) x (effect_fns s) (last_value s)
    (initialized s) (kinds s) (current_derivation s) (batch_depth s) (pending s)
    (trace s).
Definition with_effect_fns (x : gmap nat (val → prog)) (s : state) : state :=
  mkState (values s) (observers s) (dependencies s) (dirty_flags s) (cached_values s)
    (derivation_fns s) (disposed s) (id_counter s) x (last_value s)
    (initialized s) (kinds s) (current_derivation s) (batch_depth s) (pending s)
    (trace s).
Definition with_last_value (x : gmap nat val) (s : state) : state :=
  mkState (values s) (observers s) (dependencies s) (dirty_flags s) (cached_values s)
    (derivation_fns s) (disposed s) (id_counter s) (effect_fns s) x
    (initialized s) (kinds s) (current_derivation s) (batch_depth s) (pending s)
    (trace s).
Definition with_initialized (x : gmap nat bool) (s : state) : state :=
  mkState (values s) (observers s) (dependencies s) (dirty_flags s) (cached_values s)
    (derivation_fns s) (disposed s) (id_counter s) (effect_fns s) (last_value s)
    x (kinds s) (current_derivation s) (batch_depth s) (pending s)
    (trace s).
Definition with_kinds (x : gmap nat kind) (s : state) : state :=
  mkState (values s) (observers s) (dependencies s) (dirty_flags s) (cached_values s)
    (derivation_fns s) (disposed s) (id_counter s) (effect_fns s) (last_value s)
    (initialized s) x (current_derivation s) (batch_depth s) (pending s)
    (trace s).
Definition with_current (x : option nat) (s : state) : state :=
  mkState (values s) (observers s) (dependencies s) (dirty_flags s) (cached_values s)
    (derivation_fns s) (disposed s) (id_counter s) (effect_fns s) (last_value s)
    (initialized s) (kinds s) x (batch_depth s) (pending s)
    (trace s).
Definition with_batch_depth (x : Z) (s : state) : state :=
  mkState (values s) (observers s) (dependencies s) (dirty_flags s) (cached_values s)
    (derivation_fns s) (disposed s) (id_counter s) (effect_fns s) (last_value s)
    (initialized s) (kinds s) (current_derivation s) x (pending s)
    (trace s).
Definition with_pending (x : list nat) (s : state) : state :=
  mkState (values s) (observers s) (dependencies s) (dirty_flags s) (cached_values s)
    (derivation_fns s) (disposed s) (id_counter s) (effect_fns s) (last_value s)
    (initialized s) (kinds s) (current_derivation s) (batch_depth s) x
    (trace s).
Definition with_trace (x : list event) (s : state) : state :=
  mkState (values s) (observers s) (dependencies s) (dirty_flags s) (cached_values s)
    (derivation_fns s) (disposed s) (id_counter s) (effect_fns s) (last_value s)
    (initialized s) (kinds s) (current_derivation s) (batch_depth s) (pending s)
    x.

Definition emit (e : event) (s : state) : state := with_trace (trace s ++ [e]) s.

(** ** Results *)

(** A call either returns a value or raises; [None] is fuel exhaustion. *)
Inductive outcome := Ok (v : val) | Exn.

Definition res : Type := option (state * outcome).

Definition ok (s : state) (v : val) : res := Some (s, Ok v).
Definition exn (s : state) : res := Some (s, Exn).

Definition and_then (r : res) (k : val → state → res) : res :=
  match r with
  | None => None
  | Some (s, Ok v) => k v s
  | Some (s, Exn) => Some (s, Exn)
  end.

(** [try: ... finally: current_derivation.reset(token)] *)
Definition finally_reset (prev : option nat) (r : res) : res :=
  match r with
  | None => None
  | Some (s, o) => Some (with_current prev s, o)
  end.

(** [for x in l: f(x)], stopping at the first exception. *)
Fixpoint foreach (f : nat → state → res) (l : list nat) (s : state) : res :=
  match l with
  | [] => ok s vNone
  | x :: rest => and_then (f x s) (λ _ s', foreach f rest s')
  end.

(** ** Edges *)

(** The registration block shared by [Observable.get] and [Computed.get]:
    [observers[self].add(derivation); derivation._dependencies.add(self)].
    The boolean is [false] when a dictionary lookup raises [KeyError]. *)
Definition track (self : nat) (s : state) : state * bool :=
  match current_derivation s with
  | None => (s, true)
  | Some d =>
    match observers s !! self with
    | None => (s, false)
    | Some obs =>
      let s1 := with_observers (<[self := set_add d obs]> (observers s)) s in
      match dependencies s1 !! d with
      | None => (s1, false)
      | Some deps =>
        (with_dependencies (<[d := set_add self deps]> (dependencies s1)) s1,
         true)
      end
    end
  end.

(** Instrumentation of the two [get] methods: the call [self.get()] made
    while derivation [d] is evaluating is recorded as [EvRead d self]. It is
    recorded by the method itself, once it is past the registration block,
    whatever that block did to the edges. *)
Definition note_read (self : nat) (s : state) : state :=
  match current_derivation s with
  | None => s
  | Some d => emit (EvRead d self) s
  end.

(** [for dep in deps: dep._remove_observer(self)] *)
Fixpoint remove_observer_all (self : nat) (deps : list nat) (s : state)
  : state * bool :=
  match deps with
  | [] => (s, true)
  | dep :: rest =>
    match observers s !! dep with
    | None => (s, false)
    | Some obs =>
      remove_observer_all self rest
        (with_observers (<[dep := set_discard self obs]> (observers s)) s)
    end
  end.

(** The cleanup block shared by [_recompute], [_run] and [dispose]:
    remove [self] from the observers of each dependency, then
    [dependencies[self].clear()]. *)
Definition detach (self : nat) (s : state) : state * bool :=
  match dependencies s !! self with
  | None => (s, false)
  | Some deps =>
    match remove_observer_all self deps s with
    | (s1, false) => (s1, false)
    | (s1, true) =>
      (emit (EvDetach self)
         (with_dependencies (<[self := []]> (dependencies s1)) s1), true)
    end
  end.

(** ** _tracking.py *)

Definition begin_batch (s : state) : state :=
  with_batch_depth (batch_depth s + 1) s.

Definition schedule (run : nat → state → res) (d : nat) (s : state) : res :=
  if 0 <? batch_depth s
  then ok (with_pending (set_add d (pending s)) s) vNone
  else run d s.

Fixpoint _flush_pending (run : nat → state → res) (n : nat) (s : state) : res :=
  match n with
  | O => None
  | S n' =>
    match pending s with
    | [] => ok s vNone
    | batch =>
      and_then (foreach run batch (with_pending [] s))
               (λ _ s', _flush_pending run n' s')
    end
  end.

Definition end_batch (run : nat → state → res) (n : nat) (s : state) : res :=
  let s1 := with_batch_depth (batch_depth s - 1) s in
  if batch_depth s1 =? 0 then _flush_pending run n s1 else ok s1 vNone.

Definition get_pending_count (s : state) : nat := length (pending s).

(** ** observable.py *)

Definition new_id (s : state) : nat * state :=
  (id_counter s, with_id_counter (S (id_counter s)) s).

Definition Observable_init (v : val) (s : state) : nat * state :=
  let (i, s) := new_id s in
  (i, with_kinds (<[i := KObservable]> (kinds s))
        (with_observers (<[i := []]> (observers s))
           (with_values (<[i := v]> (values s)) s))).

Definition Observable_get (o : nat) (s : state) : res :=
  match track o s with
  | (s1, false) => exn s1
  | (s1, true) =>
    let s2 := note_read o s1 in
    match values s2 !! o with
    | None => exn s2
    | Some v => ok s2 v
    end
  end.

Definition _notify (run : nat → state → res) (o : nat) (s : state) : res :=
  match observers s !! o with
  | None => exn s
  | Some obs => foreach (schedule run) obs s
  end.

Definition _set_direct (run : nat → state → res) (o : nat) (v : val) (s : state)
  : res :=
  match values s !! o with
  | None => exn s
  | Some old =>
    if negb (py_is old v) && py_ne old v
    then _notify run o (with_values (<[o := v]> (values s)) s)
    else ok s vNone
  end.

(** ** computed.py *)

Definition Computed_init (fn : prog) (s : state) : nat * state :=
  let (i, s) := new_id s in
  (i, with_kinds (<[i := KComputed]> (kinds s))
        (with_observers (<[i := []]> (observers s))
           (with_dependencies (<[i := []]> (dependencies s))
              (with_dirty_flags (<[i := true]> (dirty_flags s))
                 (with_cached_values (<[i := vUnset]> (cached_values s))
                    (with_derivation_fns (<[i := fn]> (derivation_fns s)) s)))))).

(** Calling the wrapped function of derivation [d] under
    [token = current_derivation.set(d)] / [finally: reset(token)]. *)
Definition call_tracked (exec : prog → state → res) (d : nat) (s : state) : res :=
  let prev := current_derivation s in
  let s1 := with_current (Some d) s in
  finally_reset prev
    (match derivation_fns s1 !! d with
     | None => exn s1
     | Some fn => exec fn (emit (EvCall d) s1)
     end).

Definition Computed_recompute (exec : prog → state → res) (c : nat) (s : state)
  : res :=
  match detach c s with
  | (s1, false) => exn s1
  | (s1, true) =>
    let prev := current_derivation s1 in
    let s2 := with_current (Some c) s1 in
    and_then
      (finally_reset prev
         (match derivation_fns s2 !! c with
          | None => exn s2
          | Some fn =>
            and_then (exec fn (emit (EvCall c) s2))
              (λ v s3, ok (with_cached_values (<[c := v]> (cached_values s3)) s3) v)
          end))
      (λ _ s4, ok (with_dirty_flags (<[c := false]> (dirty_flags s4)) s4) vNone)
  end.

Definition Computed_get (exec : prog → state → res) (c : nat) (s : state) : res :=
  match track c s with
  | (s1, false) => exn s1
  | (s1, true) =>
    let s1 := note_read c s1 in
    match dirty_flags s1 !! c with
    | None => exn s1
    | Some dirty =>
      and_then (if dirty : bool then Computed_recompute exec c s1 else ok s1 vNone)
        (λ _ s2,
           match cached_values s2 !! c with
           | None => exn s2
           | Some v => ok s2 v
           end)
    end
  end.

Definition Computed_run (run : nat → state → res) (c : nat) (s : state) : res :=
  match dirty_flags s !! c with
  | None => exn s
  | Some true => ok s vNone
  | Some false =>
    let s1 := with_dirty_flags (<[c := true]> (dirty_flags s)) s in
    match observers s1 !! c with
    | None => exn s1
    | Some obs => foreach (schedule run) obs s1
    end
  end.

Definition Computed_dispose (c : nat) (s : state) : res :=
  match detach c s with
  | (s1, false) => exn s1
  | (s1, true) =>
    match observers s1 !! c with
    | None => exn s1
    | Some _ =>
      ok (with_cached_values (<[c := vUnset]> (cached_values s1))
            (with_dirty_flags (<[c := true]> (dirty_flags s1))
               (with_observers (<[c := []]> (observers s1))
                  (emit (EvDispose c) s1)))) vNone
    end
  end.

(** ** reaction.py *)

Definition Reaction_init (fn : prog) (s : state) : nat * state :=
  let (i, s) := new_id s in
  (i, with_kinds (<[i := KReaction]> (kinds s))
        (with_disposed (<[i := false]> (disposed s))
           (with_dependencies (<[i := []]> (dependencies s))
              (with_derivation_fns (<[i := fn]> (derivation_fns s)) s)))).

Definition Reaction_run (exec : prog → state → res) (r : nat) (s : state) : res :=
  match disposed s !! r with
  | None => exn s
  | Some true => ok s vNone
  | Some false =>
    match detach r s with
    | (s1, false) => exn s1
    | (s1, true) => and_then (call_tracked exec r s1) (λ _ s2, ok s2 vNone)
    end
  end.

Definition Reaction_dispose (r : nat) (s : state) : res :=
  match detach r (with_disposed (<[r := true]> (disposed s)) s) with
  | (s1, false) => exn s1
  | (s1, true) => ok s1 vNone
  end.

Definition DataReaction_init (data_fn : prog) (effect_fn : val → prog) (s : state)
  : nat * state :=
  let (i, s) := new_id s in
  (i, with_kinds (<[i := KDataReaction]> (kinds s))
        (with_initialized (<[i := false]> (initialized s))
           (with_last_value (<[i := vNone]> (last_value s))
              (with_effect_fns (<[i := effect_fn]> (effect_fns s))
                 (with_disposed (<[i := false]> (disposed s))
                    (with_dependencies (<[i := []]> (dependencies s))
                       (with_derivation_fns (<[i := data_fn]> (derivation_fns s))
                          s))))))).

(** The tail of [_DataReaction._run], after [new_value] is known. *)
Definition DataReaction_gate (exec : prog → state → res) (r : nat) (new_value : val)
    (s : state) : res :=
  match initialized s !! r, last_value s !! r with
  | Some init, Some last =>
    if negb (init : bool) || py_ne new_value last
    then
      let s1 := with_initialized (<[r := true]> (initialized s))
                  (with_last_value (<[r := new_value]> (last_value s)) s) in
      match effect_fns s1 !! r with
      | None => exn s1
      | Some effect_fn =>
        and_then
          (exec (effect_fn new_value)
             (emit (EvEffect r new_value) s1))
          (λ _ s2, ok s2 vNone)
      end
    else ok s vNone
  | _, _ => exn s
  end.

Definition DataReaction_run (exec : prog → state → res) (r : nat) (s : state)
  : res :=
  match disposed s !! r with
  | None => exn s
  | Some true => ok s vNone
  | Some false =>
    match detach r s with
    | (s1, false) => exn s1
    | (s1, true) =>
      and_then (call_tracked exec r s1) (DataReaction_gate exec r)
    end
  end.

Definition autorun (exec : prog → state → res) (fn : prog) (s : state) : res :=
  let (r, s1) := Reaction_init fn s in
  and_then (Reaction_run exec r s1) (λ _ s2, ok s2 (vRef r)).

Definition reaction (exec : prog → state → res) (data_fn : prog)
    (effect_fn : val → prog) (fire_immediately : bool) (s : state) : res :=
  let (r, s1) := DataReaction_init data_fn effect_fn s in
  if fire_immediately
  then and_then (DataReaction_run exec r s1) (λ _ s2, ok s2 (vRef r))
  else
    let prev := current_derivation s1 in
    let s2 := with_current (Some r) s1 in
    and_then
      (finally_reset prev
         (and_then (exec data_fn (emit (EvCall r) s2))
            (λ v s3,
               ok (with_initialized (<[r := true]> (initialized s3))
                     (with_last_value (<[r := v]> (last_value s3)) s3)) vNone)))
      (λ _ s4, ok s4 (vRef r)).

(** ** action.py *)

(** [begin_batch(); try: return fn() finally: end_batch()] — the body of
    both the [action] wrapper and the [transaction] context manager. *)
Definition transaction (exec : prog → state → res) (run : nat → state → res)
    (n : nat) (body : prog) (s : state) : res :=
  match exec body (begin_batch s) with
  | None => None
  | Some (s1, o) =>
    match end_batch run n s1 with
    | None => None
    | Some (s2, Exn) => Some (s2, Exn)
    | Some (s2, Ok _) => Some (s2, o)
    end
  end.

(** ** The interpreters *)

Definition is_kind (k : kind) (i : nat) (s : state) : bool :=
  bool_decide (kinds s !! i = Some k).

(** One engine call made by user code. A method call on an id that is not
    a handle of the method's class raises. *)
Definition do_cmd (exec : prog → state → res) (run : nat → state → res) (n : nat)
    (c : cmd) (s : state) : res :=
  match c with
  | NewObservable v => let (i, s1) := Observable_init v s in ok s1 (vRef i)
  | NewComputed fn => let (i, s1) := Computed_init fn s in ok s1 (vRef i)
  | Autorun fn => autorun exec fn s
  | NewReaction data_fn effect_fn fire => reaction exec data_fn effect_fn fire s
  | Get o => if is_kind KObservable o s then Observable_get o s else exn s
  | Set_ o v => if is_kind KObservable o s then _set_direct run o v s else exn s
  | CGet c => if is_kind KComputed c s then Computed_get exec c s else exn s
  | CDispose c => if is_kind KComputed c s then Computed_dispose c s else exn s
  | RDispose r =>
    if is_kind KReaction r s || is_kind KDataReaction r s
    then Reaction_dispose r s else exn s
  | BeginBatch => ok (begin_batch s) vNone
  | EndBatch => end_batch run n s
  | Transaction body => transaction exec run n body s
  | GetPendingCount => ok s (vInt (Z.of_nat (get_pending_count s)))
  | Log vs => ok (emit (EvLog vs) s) vNone
  end.

(** [derivation._run()], dispatched on the class of the handle. *)
Definition run_body (exec : prog → state → res) (run : nat → state → res)
    (d : nat) (s : state) : res :=
  match kinds s !! d with
  | Some KComputed => Computed_run run d s
  | Some KReaction => Reaction_run exec d s
  | Some KDataReaction => DataReaction_run exec d s
  | _ => exn s
  end.

Fixpoint exec (n : nat) (p : prog) (s : state) {struct n} : res :=
  match n with
  | O => None
  | S n' =>
    match p with
    | Ret v => ok s v
    | Raise => exn s
    | Bind c k =>
      and_then (do_cmd (exec n') (run n') n' c s) (λ v s', exec n' (k v) s')
    end
  end
with run (n : nat) (d : nat) (s : state) {struct n} : res :=
  match n with
  | O => None
  | S n' => run_body (exec n') (run n') d s
  end.

(** ** Reading the trace *)

Definition logged (t : list event) : list (list val) :=
  omap (λ e, match e with EvLog vs => Some vs | _ => None end) t.

Definition calls (t : list event) : list nat :=
  omap (λ e, match e with EvCall d => Some d | _ => None end) t.

Definition effects (t : list event) : list (nat * val) :=
  omap (λ e, match e with EvEffect d v => Some (d, v) | _ => None end) t.

(** The ids of the derivations that ran, are pending and the final outcome
    of a top-level program, for stating examples. *)
Definition final (f : state → Prop) (r : res) : Prop :=
  match r with
  | Some (s, _) => f s
  | None => False
  end.

Definition raised (r : res) : bool :=
  match r with
  | Some (_, Exn) => true
  | _ => false
  end.

(** ** Writing user code *)

Definition ref_id (v : val) : nat :=
  match data v with
  | PRef n => n
  | _ => O
  end.

Definition int_of (v : val) : Z :=
  match data v with
  | PInt z => z
  | _ => 0
  end.

Module ProgNotations.
Notation "x <~ c ;; k" := (Bind c (λ x, k))
  (at level 100, c at next level, right associativity).
Notation "c ;;; k" := (Bind c (λ _, k))
  (at level 100, right associativity).
End ProgNotations.
Import ProgNotations.


(** ** Example programs *)

(** The state a top-level program leaves behind. *)
Definition state_after (n : nat) (p : prog) : state :=
  match exec n p initial_state with
  | Some (s, _) => s
  | None => initial_state
  end.

Definition res_state (r : res) : state :=
  match r with
  | Some (s, _) => s
  | None => initial_state
  end.

(** A cell holding a NaN-like object, observed by one autorun. *)
Definition nan_obj : val := mkVal 99 PNaN.

Definition nan_cell_prog : prog :=
  o <~ NewObservable nan_obj ;;
  Autorun (x <~ Get (ref_id o) ;; Log [x] ;;; Ret vNone) ;;;
  Ret vNone.

(** [test_dedup]: a cell holding 42, observed by one autorun. *)
Definition dedup_prog : prog :=
  o <~ NewObservable (vInt 42) ;;
  Autorun (x <~ Get (ref_id o) ;; Log [x] ;;; Ret vNone) ;;;
  Ret vNone.


(** Two reactions on one cell; the first raises once the cell is not 0.
    The batch logs the pending count (with tag 100) before it ends. *)
Definition failing_flush_prog : prog :=
  a <~ NewObservable (vInt 0) ;;
  Autorun (v <~ Get (ref_id a) ;;
           if int_of v =? 0 then Ret vNone else Raise) ;;;
  Autorun (v <~ Get (ref_id a) ;; Log [v] ;;; Ret vNone) ;;;
  Transaction (Set_ (ref_id a) (vInt 1) ;;;
               c <~ GetPendingCount ;;
               Log [vInt 100; c] ;;; Ret vNone) ;;;
  Ret vNone.

(** [test_batches_updates] with the reaction observing both cells, which
    the batch schedules twice. *)
Definition batch_prog : prog :=
  a <~ NewObservable (vInt 0) ;;
  b <~ NewObservable (vInt 0) ;;
  Autorun (x <~ Get (ref_id a) ;; y <~ Get (ref_id b) ;;
           Log [x; y] ;;; Ret vNone) ;;;
  Transaction (Set_ (ref_id a) (vInt 1) ;;;
               Set_ (ref_id b) (vInt 2) ;;; Ret vNone) ;;;
  Ret vNone.

(** A state inside a batch with a Computed (id 2) that was never read, and
    a reaction (id 3) that the batch has scheduled. *)
Definition dirty_in_batch_prog : prog :=
  o <~ NewObservable (vInt 5) ;;
  c <~ NewComputed (x <~ Get (ref_id o) ;; Ret x) ;;
  Autorun (x <~ Get (ref_id o) ;; Log [x] ;;; Ret vNone) ;;;
  BeginBatch ;;;
  Set_ (ref_id o) (vInt 6) ;;;
  Ret vNone.

(** [failing_flush_prog] stopped inside the batch, after the write. *)
Definition failing_flush_open_prog : prog :=
  a <~ NewObservable (vInt 0) ;;
  Autorun (v <~ Get (ref_id a) ;;
           if int_of v =? 0 then Ret vNone else Raise) ;;;
  Autorun (v <~ Get (ref_id a) ;; Log [v] ;;; Ret vNone) ;;;
  BeginBatch ;;;
  Set_ (ref_id a) (vInt 1) ;;;
  Ret vNone.

(** ** Batch bodies

    The work done inside a batch scope, as far as cells are concerned: a
    sequence of [set] calls and nested [transaction] / [action] scopes. *)
Inductive batch_body :=
  | BDone
  | BSet (o : nat) (v : val) (k : batch_body)
  | BNested (inner : batch_body) (k : batch_body).

Fixpoint body_prog (w : batch_body) : prog :=
  match w with
  | BDone => Ret vNone
  | BSet o v k => Set_ o v ;;; body_prog k
  | BNested inner k => Transaction (body_prog inner) ;;; body_prog k
  end.

(** The cells' values once every write of the body has been applied. *)
Fixpoint body_values (w : batch_body) (vals : gmap nat val) : gmap nat val :=
  match w with
  | BDone => vals
  | BSet o v k =>
    body_values k
      match vals !! o with
      | Some old => if negb (py_is old v) && py_ne old v then <[o := v]> vals else vals
      | None => vals
      end
  | BNested inner k => body_values k (body_values inner vals)
  end.

(** Every cell the body writes is an [Observable] of the arena. *)
Fixpoint body_ok (w : batch_body) (s : state) : Prop :=
  match w with
  | BDone => True
  | BSet o v k =>
    kinds s !! o = Some KObservable ∧ is_Some (values s !! o) ∧
    is_Some (observers s !! o) ∧ body_ok k s
  | BNested inner k => body_ok inner s ∧ body_ok k s
  end.

(** Fuel that suffices to run the body inside a batch. *)
Fixpoint body_fuel (w : batch_body) : nat :=
  match w with
  | BDone => 1
  | BSet o v k => S (body_fuel k)
  | BNested inner k => S (body_fuel inner `max` body_fuel k)
  end.

(** [test_batches_updates]: the graph before the batch, and the batch. *)
Definition two_cells_prog : prog :=
  a <~ NewObservable (vInt 0) ;;
  b <~ NewObservable (vInt 0) ;;
  Autorun (x <~ Get (ref_id a) ;; y <~ Get (ref_id b) ;;
           Log [x; y] ;;; Ret vNone) ;;;
  Ret vNone.

Definition two_writes : batch_body :=
  BSet 1 (vInt 1) (BNested (BSet 2 (vInt 2) BDone) BDone).

(** ** Relating the states of an execution *)

(** The prologue common to [Observable.get] and [Computed.get]: the
    registration block, then the record of the read. *)
Definition track_read (self : nat) (s : state) : state * bool :=
  match track self s with
  | (s1, true) => (note_read self s1, true)
  | (s1, false) => (s1, false)
  end.

(** The fields the graph invariants speak about. *)
Definition core (s : state) :=
  (observers s, dependencies s, current_derivation s, trace s, kinds s,
   id_counter s).

(** What never shrinks: arena entries are not deleted, a handle keeps its
    class, ids are not reused, the trace is only appended to. *)
Record grows (s s' : state) : Prop := {
  grows_observers : ∀ i, is_Some (observers s !! i) → is_Some (observers s' !! i);
  grows_dependencies :
    ∀ i, is_Some (dependencies s !! i) → is_Some (dependencies s' !! i);
  grows_kinds : ∀ i k, kinds s !! i = Some k → kinds s' !! i = Some k;
  grows_id_counter : (id_counter s ≤ id_counter s')%nat;
  grows_trace : trace s `prefix_of` trace s'
}.

(** Events that do not concern edges. *)
Definition silent (e : event) : bool :=
  match e with
  | EvLog _ | EvCall _ | EvEffect _ _ => true
  | _ => false
  end.

(** A state transformer that keeps a property [P] and only grows. *)
Definition keeps (P : state → Prop) (f : state → res) : Prop :=
  ∀ s s' o, P s → f s = Some (s', o) → P s' ∧ grows s s'.

(** Ids in use are below the counter, so a fresh id is new everywhere. *)
Record ids_fresh (s : state) : Prop := {
  fresh_observers : ∀ i, is_Some (observers s !! i) → (i < id_counter s)%nat;
  fresh_dependencies :
    ∀ i, is_Some (dependencies s !! i) → (i < id_counter s)%nat;
  fresh_kinds : ∀ i, is_Some (kinds s !! i) → (i < id_counter s)%nat;
  fresh_members_obs :
    ∀ i l d, observers s !! i = Some l → d ∈ l → (d < id_counter s)%nat;
  fresh_members_deps :
    ∀ i l a, dependencies s !! i = Some l → a ∈ l → (a < id_counter s)%nat;
  fresh_trace_read : ∀ d a, EvRead d a ∈ trace s → (d < id_counter s)%nat
}.

(** ** The graph invariants *)

(** Well-formedness of the arena together with the two directions of the
    symmetry of edges. [gi_obs_dep]: an observer of [a] has [a] among its
    dependencies. [gi_dep_obs]: a dependency [a] of [b] has [b] among its
    observers, unless [a] is a Computed on which [dispose] was called. *)
Record graph_inv (s : state) : Prop := {
  gi_fresh : ids_fresh s;
  gi_current :
    ∀ d, current_derivation s = Some d → is_Some (dependencies s !! d);
  gi_sources :
    ∀ b l a, dependencies s !! b = Some l → a ∈ l → is_Some (observers s !! a);
  gi_obs_dep :
    ∀ a l b, observers s !! a = Some l → b ∈ l →
             ∃ l', dependencies s !! b = Some l' ∧ a ∈ l';
  gi_dep_obs :
    ∀ b l a, dependencies s !! b = Some l → a ∈ l → EvDispose a ∉ trace s →
             ∃ l', observers s !! a = Some l' ∧ b ∈ l'
}.

(** The nodes [d] has read since its cleanup block last ran. *)
Definition tracked_step (d : nat) (acc : list nat) (e : event) : list nat :=
  match e with
  | EvDetach d' => if decide (d' = d) then [] else acc
  | EvRead d' a => if decide (d' = d) then a :: acc else acc
  | _ => acc
  end.

Definition tracked (d : nat) (t : list event) : list nat :=
  foldl (tracked_step d) [] t.

(** Freshness: the dependencies of [d] are the nodes it has read since its
    cleanup block last ran. *)
Definition fresh_deps (s : state) : Prop :=
  ∀ d l, dependencies s !! d = Some l → ∀ a, a ∈ l ↔ a ∈ tracked d (trace s).

Definition inv (s : state) : Prop := graph_inv s ∧ fresh_deps s.

(** A Computed read by a reaction, then disposed. *)
Definition dispose_computed_prog : prog :=
  o <~ NewObservable (vInt 5) ;;
  c <~ NewComputed (x <~ Get (ref_id o) ;; Ret x) ;;
  Autorun (x <~ CGet (ref_id c) ;; Log [x] ;;; Ret vNone) ;;;
  CDispose (ref_id c) ;;;
  Ret vNone.

(** The same graph, with the reaction disposed instead. *)
Definition dispose_reaction_prog : prog :=
  o <~ NewObservable (vInt 5) ;;
  c <~ NewComputed (x <~ Get (ref_id o) ;; Ret x) ;;
  r <~ Autorun (x <~ CGet (ref_id c) ;; Log [x] ;;; Ret vNone) ;;
  RDispose (ref_id r) ;;;
  Ret vNone.





(** ** A value-gated reaction on one cell

    The graph of [test_dedup_effect]: a cell [o] and a reaction whose data
    function applies [f] to the cell's value and whose effect logs. *)
Definition gated_data (o : nat) (f : Z → Z) : prog :=
  x <~ Get o ;; Ret (vInt (f (int_of x))).
Definition gated_effect : val → prog := λ v, Log [v] ;;; Ret vNone.

Record gated_graph (o r : nat) (f : Z → Z) (z : Z) (s : state) : Prop := {
  gg_kind_o : kinds s !! o = Some KObservable;
  gg_kind_r : kinds s !! r = Some KDataReaction;
  gg_value : values s !! o = Some (vInt z);
  gg_observers : observers s !! o = Some [r];
  gg_deps : dependencies s !! r = Some [o];
  gg_disposed : disposed s !! r = Some false;
  gg_fn : derivation_fns s !! r = Some (gated_data o f);
  gg_effect : effect_fns s !! r = Some gated_effect;
  gg_init : initialized s !! r = Some true;
  gg_last : last_value s !! r = Some (vInt (f z));
  gg_depth : batch_depth s = 0;
  gg_current : current_derivation s = None
}.

Record cell_ready (o : nat) (z : Z) (s : state) : Prop := {
  cr_kind : kinds s !! o = Some KObservable;
  cr_value : values s !! o = Some (vInt z);
  cr_observers : observers s !! o = Some [];
  cr_fresh : (o < id_counter s)%nat;
  cr_depth : batch_depth s = 0;
  cr_current : current_derivation s = None
}.

(** The outputs that differ from the one before them. *)
Fixpoint changes (prev : Z) (ys : list Z) : list Z :=
  match ys with
  | [] => []
  | y :: ys' => if y =? prev then changes prev ys' else y :: changes y ys'
  end.

(** Top-level code writing the cell once per element of [zs]. *)
Fixpoint set_all (n : nat) (o : nat) (zs : list Z) (s : state) : res :=
  match zs with
  | [] => ok s vNone
  | z :: zs' =>
    and_then (do_cmd (exec n) (run n) n (Set_ o (vInt z)) s)
             (λ _ s', set_all n o zs' s')
  end.

Definition one_cell_prog : prog := NewObservable (vInt 1) ;;; Ret vNone.

(** ** Further example programs *)

(** A diamond: a cell (id 1), a Computed over it (id 2) and a reaction
    (id 3) that reads both. The batch logs the pending count (with tag
    100) before it ends; the reaction logs what it reads. *)
Definition diamond_prog : prog :=
  a <~ NewObservable (vInt 1) ;;
  c <~ NewComputed (x <~ Get (ref_id a) ;; Ret (vInt (int_of x * 10))) ;;
  Autorun (x <~ Get (ref_id a) ;; y <~ CGet (ref_id c) ;;
           Log [x; y] ;;; Ret vNone) ;;;
  Transaction (Set_ (ref_id a) (vInt 2) ;;;
               n <~ GetPendingCount ;;
               Log [vInt 100; n] ;;; Ret vNone) ;;;
  Ret vNone.

(** [diamond_prog] stopped inside the batch, after the cell has been
    written twice. *)
Definition diamond_open_prog : prog :=
  a <~ NewObservable (vInt 1) ;;
  c <~ NewComputed (x <~ Get (ref_id a) ;; Ret (vInt (int_of x * 10))) ;;
  Autorun (x <~ Get (ref_id a) ;; y <~ CGet (ref_id c) ;;
           Log [x; y] ;;; Ret vNone) ;;;
  BeginBatch ;;;
  Set_ (ref_id a) (vInt 2) ;;;
  Set_ (ref_id a) (vInt 3) ;;;
  Ret vNone.







(** ** Further definitions used to state properties of the engine *)

(** The pending set after scheduling every member of [l] inside a batch:
    [_pending.add] for each, in order. *)
Definition add_all (l : list nat) (P : list nat) : list nat :=
  foldl (λ acc d, set_add d acc) P l.

(** A batch body followed by arbitrary code [k]. *)
Fixpoint body_then (w : batch_body) (k : prog) : prog :=
  match w with
  | BDone => k
  | BSet o v w' => Set_ o v ;;; body_then w' k
  | BNested inner w' => Transaction (body_prog inner) ;;; body_then w' k
  end.

(** A clean Computed (id 2) over a cell (id 1), read by a reaction
    (id 3), inside an open batch. *)
Definition clean_in_batch_prog : prog :=
  o <~ NewObservable (vInt 5) ;;
  c <~ NewComputed (x <~ Get (ref_id o) ;; Ret x) ;;
  Autorun (x <~ CGet (ref_id c) ;; Log [x] ;;; Ret vNone) ;;;
  BeginBatch ;;;
  Ret vNone.

(** A cell (id 1) observed by a reaction that raises once the cell is not
    0 (id 2) and by a reaction that logs (id 3). *)
Definition failing_observer_prog : prog :=
  a <~ NewObservable (vInt 0) ;;
  Autorun (v <~ Get (ref_id a) ;;
           if int_of v =? 0 then Ret vNone else Raise) ;;;
  Autorun (v <~ Get (ref_id a) ;; Log [v] ;;; Ret vNone) ;;;
  Ret vNone.

(** A Computed (id 2) over a cell (id 1), read once at top level. *)
Definition read_computed_prog : prog :=
  o <~ NewObservable (vInt 5) ;;
  c <~ NewComputed (x <~ Get (ref_id o) ;; Ret (vInt (int_of x * 2))) ;;
  CGet (ref_id c) ;;;
  Ret vNone.

(** ** store.py

    A [Store] is a Python object outside the arena: a dictionary from keys
    to [Observable] handles and a list of handles to dispose. Its methods
    use the public operations of the engine only. A schema (a [dict]
    iterated with [items()]) is the list of its entries in order. *)
Record store := mkStore {
  _observables : gmap string nat;
  _reaction_disposers : list nat
}.

(** [initial.get(key, default) if initial else default] *)
Definition initial_value (initial : option (gmap string val)) (key : string)
    (default : val) : val :=
  match initial with
  | Some m =>
    if decide (size m = 0%nat) then default
    else match m !! key with
         | Some v => v
         | None => default
         end
  | None => default
  end.

(** The loop of [Store.__init__]. *)
Fixpoint Store_fill (schema : list (string * val))
    (initial : option (gmap string val)) (obs : gmap string nat) (s : state)
  : gmap string nat * state :=
  match schema with
  | [] => (obs, s)
  | (key, default) :: rest =>
    let (i, s1) := Observable_init (initial_value initial key default) s in
    Store_fill rest initial (<[key := i]> obs) s1
  end.

Definition Store_init (schema : list (string * val))
    (initial : option (gmap string val)) (s : state) : store * state :=
  let (obs, s') := Store_fill schema initial ∅ s in
  (mkStore obs [], s').

Definition Store_get (st : store) (key : string) (s : state) : res :=
  match _observables st !! key with
  | Some o => Observable_get o s
  | None => ok s vNone
  end.

Definition Store_set (rn : nat → state → res) (st : store) (key : string)
    (v : val) (s : state) : res :=
  match _observables st !! key with
  | Some o => _set_direct rn o v s
  | None => ok s vNone
  end.

(** The [action] wrapper applied to a Python function:
    [begin_batch(); try: return fn(...) finally: end_batch()]. *)
Definition action (rn : nat → state → res) (n : nat) (fn : state → res)
    (s : state) : res :=
  match fn (begin_batch s) with
  | None => None
  | Some (s1, o) =>
    match end_batch rn n s1 with
    | None => None
    | Some (s2, Exn) => Some (s2, Exn)
    | Some (s2, Ok _) => Some (s2, o)
    end
  end.

(** [for key, value in values.items(): self.set(key, value)] *)
Fixpoint Store_set_items (rn : nat → state → res) (st : store)
    (items : list (string * val)) (s : state) : res :=
  match items with
  | [] => ok s vNone
  | (key, v) :: rest =>
    and_then (Store_set rn st key v s) (λ _ s', Store_set_items rn st rest s')
  end.

Definition Store_update (rn : nat → state → res) (n : nat) (st : store)
    (items : list (string * val)) (s : state) : res :=
  action rn n (Store_set_items rn st items) s.

(** [d.dispose()], dispatched on the class of the handle. *)
Definition dispose_handle (d : nat) (s : state) : res :=
  match kinds s !! d with
  | Some KComputed => Computed_dispose d s
  | Some KReaction | Some KDataReaction => Reaction_dispose d s
  | _ => exn s
  end.

(** The outcome of a method that may have changed the store object. *)
Definition store_res : Type := option (store * state * outcome).

(** [Store._dispose_reactions] *)
Definition Store_dispose_reactions (st : store) (s : state) : store_res :=
  match foreach dispose_handle (_reaction_disposers st) s with
  | None => None
  | Some (s', Ok _) => Some (mkStore (_observables st) [], s', Ok vNone)
  | Some (s', Exn) => Some (st, s', Exn)
  end.

(** The first loop of [reconcile]: a key of the schema that the store does
    not have gets a new cell holding the default. *)
Fixpoint Store_add_keys (schema : list (string * val)) (obs : gmap string nat)
    (s : state) : gmap string nat * state :=
  match schema with
  | [] => (obs, s)
  | (key, default) :: rest =>
    match obs !! key with
    | Some _ => Store_add_keys rest obs s
    | None =>
      let (i, s1) := Observable_init default s in
      Store_add_keys rest (<[key := i]> obs) s1
    end
  end.

(** [setup_fn(store)]: user code that returns the disposers, or raises
    (inner [None]); the outer [None] is fuel exhaustion. *)
Definition setup_fn : Type := store → state → option (state * option (list nat)).

(** [Store.reconcile] *)
Definition Store_reconcile (setup : setup_fn) (st : store)
    (schema : list (string * val)) (s : state) : store_res :=
  let (obs, s1) := Store_add_keys schema (_observables st) s in
  match Store_dispose_reactions (mkStore obs (_reaction_disposers st)) s1 with
  | None => None
  | Some (st2, s2, Exn) => Some (st2, s2, Exn)
  | Some (st2, s2, Ok _) =>
    match setup st2 s2 with
    | None => None
    | Some (s3, None) => Some (st2, s3, Exn)
    | Some (s3, Some l) => Some (mkStore (_observables st2) l, s3, Ok vNone)
    end
  end.

(** [HotReloadStore.reconcile]: the same, with the call of [setup_fn]
    inside [try: ... except Exception:], which leaves no disposers. *)
Definition HotReloadStore_reconcile (setup : setup_fn) (st : store)
    (schema : list (string * val)) (s : state) : store_res :=
  let (obs, s1) := Store_add_keys schema (_observables st) s in
  match Store_dispose_reactions (mkStore obs (_reaction_disposers st)) s1 with
  | None => None
  | Some (st2, s2, Exn) => Some (st2, s2, Exn)
  | Some (st2, s2, Ok _) =>
    match setup st2 s2 with
    | None => None
    | Some (s3, None) => Some (mkStore (_observables st2) [], s3, Ok vNone)
    | Some (s3, Some l) => Some (mkStore (_observables st2) l, s3, Ok vNone)
    end
  end.

(** [Store.dispose] *)
Definition Store_dispose (st : store) (s : state) : store_res :=
  Store_dispose_reactions st s.

(** The cells of a store are cells of the arena. *)
Definition store_cells_ok (st : store) (s : state) : Prop :=
  ∀ key o, _observables st !! key = Some o →
           is_Some (values s !! o) ∧ is_Some (observers s !! o).

(** The batch body that an [update] amounts to: one write per item whose
    key the store has. *)
Fixpoint items_body (st : store) (items : list (string * val)) : batch_body :=
  match items with
  | [] => BDone
  | (key, v) :: rest =>
    match _observables st !! key with
    | Some o => BSet o v (items_body st rest)
    | None => items_body st rest
    end
  end.

(** A reaction of the arena: a handle of class [Reaction] or
    [_DataReaction] with its dependencies entry. *)
Definition live_reaction (s : state) (d : nat) : Prop :=
  (kinds s !! d = Some KReaction ∨ kinds s !! d = Some KDataReaction) ∧
  is_Some (dependencies s !! d).

(** Cells x (id 1) and y (id 2) and a reaction (id 3) that logs both, and
    the store that holds them: the reaction is its only disposer. *)
Definition demo_store_prog : prog :=
  NewObservable (vInt 99) ;;;
  NewObservable (vInt 20) ;;;
  Autorun (x <~ Get 1 ;; y <~ Get 2 ;; Log [x; y] ;;; Ret vNone) ;;;
  Ret vNone.

Definition demo_state : state := state_after 20 demo_store_prog.

Definition demo_store : store :=
  mkStore (<["y"%string := 2%nat]> (<["x"%string := 1%nat]> ∅)) [3%nat].

Definition demo_schema : list (string * val) :=
  [("x"%string, vInt 10); ("y"%string, vInt 20)].

Definition demo_initial : option (gmap string val) :=
  Some {["x"%string := vInt 99]}.

(** A [setup_fn] that raises at once. *)
Definition failing_setup : setup_fn := λ _ s, Some (s, None).
(** ** Basic equations *)

Lemma exec_S n p s :
  exec (S n) p s =
  match p with
  | Ret v => ok s v
  | Raise => exn s
  | Bind c k => and_then (do_cmd (exec n) (run n) n c s) (λ v s', exec n (k v) s')
  end.
Proof. reflexivity. Qed.

Lemma run_S n d s : run (S n) d s = run_body (exec n) (run n) d s.
Proof. reflexivity. Qed.

Lemma track_read_unfold self s :
  track_read self s =
  match current_derivation s with
  | None => (s, true)
  | Some d =>
    match observers s !! self with
    | None => (s, false)
    | Some obs =>
      let s1 := with_observers (<[self := set_add d obs]> (observers s)) s in
      match dependencies s1 !! d with
      | None => (s1, false)
      | Some deps =>
        (emit (EvRead d self)
           (with_dependencies (<[d := set_add self deps]> (dependencies s1)) s1),
         true)
      end
    end
  end.
Proof.
  unfold track_read, track, note_read.
  destruct (current_derivation s) as [d|] eqn:Hc; [| by rewrite Hc].
  destruct (observers s !! self); [| done]. cbn.
  destruct (dependencies s !! d); [| done]. cbn. by rewrite Hc.
Qed.

Lemma Observable_get_eq o s :
  Observable_get o s =
  match track_read o s with
  | (s1, false) => exn s1
  | (s1, true) =>
    match values s1 !! o with
    | None => exn s1
    | Some v => ok s1 v
    end
  end.
Proof. unfold Observable_get, track_read. by destruct (track o s) as [s1 [|]]. Qed.

Lemma Computed_get_eq ex c s :
  Computed_get ex c s =
  match track_read c s with
  | (s1, false) => exn s1
  | (s1, true) =>
    match dirty_flags s1 !! c with
    | None => exn s1
    | Some dirty =>
      and_then (if dirty : bool then Computed_recompute ex c s1 else ok s1 vNone)
        (λ _ s2,
           match cached_values s2 !! c with
           | None => exn s2
           | Some v => ok s2 v
           end)
    end
  end.
Proof. unfold Computed_get, track_read. by destruct (track c s) as [s1 [|]]. Qed.

Lemma is_kind_true k i s : kinds s !! i = Some k → is_kind k i s = true.
Proof. intros H. unfold is_kind. by apply bool_decide_eq_true. Qed.

Lemma set_add_elem x l : x ∈ set_add x l.
Proof. unfold set_add. case_decide; [done | set_solver]. Qed.

Lemma set_add_idem x l : set_add x (set_add x l) = set_add x l.
Proof.
  unfold set_add at 1. case_decide as H; [done |].
  destruct H. apply set_add_elem.
Qed.

Lemma set_add_NoDup x l : NoDup l → NoDup (set_add x l).
Proof.
  intros H. unfold set_add. case_decide as Hx; [done |].
  apply NoDup_app. split_and!; [done | | apply NoDup_singleton].
  intros y Hy Hy'. apply list_elem_of_singleton in Hy'. by subst.
Qed.

(** ** Writes that do not change the value *)

(** C7. [set(v)] with [v] equal under [==] to the stored value returns with
    the state untouched: nothing is run, nothing is added to the pending
    set, no flag and no edge changes. *)
Theorem noop_write_suppression exec run n o v old s :
  kinds s !! o = Some KObservable →
  values s !! o = Some old →
  py_eq old v = true →
  do_cmd exec run n (Set_ o v) s = ok s vNone.
Proof.
  intros Hk Hv Heq. cbn. rewrite (is_kind_true _ _ _ Hk).
  unfold _set_direct. rewrite Hv. unfold py_ne. rewrite Heq.
  by rewrite andb_false_r.
Qed.

Lemma noop_write_suppression_witness :
  let s := state_after 20 dedup_prog in
  trace s ≠ [] ∧ observers s !! 1%nat = Some [2%nat] ∧
  do_cmd (exec 5) (run 5) 5 (Set_ 1 (mkVal 7 (PInt 42))) s = ok s vNone.
Proof.
  intros s. split_and!.
  - vm_compute. discriminate.
  - vm_compute. reflexivity.
  - apply (noop_write_suppression (exec 5) (run 5) 5%nat 1%nat
             (mkVal 7 (PInt 42)) (vInt 42) s); vm_compute; reflexivity.
Defined.

(** C10. [set(v)] with [v] the very object that is stored never propagates,
    whatever [v == v] says; and whenever a write does anything at all, the
    new value is a different object and is unequal to the old one. *)
Theorem identity_shortcut exec run n o v old s :
  kinds s !! o = Some KObservable →
  values s !! o = Some old →
  (py_is old v = true → do_cmd exec run n (Set_ o v) s = ok s vNone) ∧
  (do_cmd exec run n (Set_ o v) s ≠ ok s vNone →
   py_is old v = false ∧ py_ne old v = true).
Proof.
  intros Hk Hv. cbn. rewrite (is_kind_true _ _ _ Hk).
  unfold _set_direct. rewrite Hv. split.
  - intros ->. reflexivity.
  - destruct (py_is old v), (py_ne old v); cbn; try done.
Qed.

Lemma identity_shortcut_witness :
  let s := state_after 20 nan_cell_prog in
  py_eq nan_obj nan_obj = false ∧
  observers s !! 1%nat = Some [2%nat] ∧
  do_cmd (exec 5) (run 5) 5 (Set_ 1 nan_obj) s = ok s vNone.
Proof.
  intros s. split_and!; [reflexivity | vm_compute; reflexivity |].
  apply (identity_shortcut (exec 5) (run 5) 5%nat 1%nat nan_obj nan_obj s);
    vm_compute; reflexivity.
Defined.

(** ** The scheduler *)

Lemma foreach_app f l1 l2 s :
  foreach f (l1 ++ l2) s = and_then (foreach f l1 s) (λ _ s', foreach f l2 s').
Proof.
  revert s. induction l1 as [|x l1 IH]; intros s; cbn; [done |].
  destruct (f x s) as [[s' [v|]]|]; cbn; auto.
Qed.

Lemma flush_S rn n s :
  _flush_pending rn (S n) s =
  match pending s with
  | [] => ok s vNone
  | d :: rest =>
    and_then (foreach rn (d :: rest) (with_pending [] s))
             (λ _ s', _flush_pending rn n s')
  end.
Proof. cbn. by destruct (pending s). Qed.


(** C2, as the code has it. The snapshot is taken and the pending set
    cleared before the first member runs. When the run of a member raises,
    the flush stops in the state that run left: the members after it are
    neither run nor put back. *)
Theorem flush_abort_drops_rest_of_snapshot rn n s before d after s1 s' v :
  pending s = before ++ d :: after →
  foreach rn before (with_pending [] s) = Some (s1, Ok v) →
  rn d s1 = Some (s', Exn) →
  get_pending_count (with_pending [] s) = 0%nat ∧
  _flush_pending rn (S n) s = Some (s', Exn).
Proof.
  intros Hp Hb Hd. split; [done |]. rewrite flush_S.
  destruct (pending s) as [|x l] eqn:E.
  { by destruct before. }
  rewrite Hp, foreach_app, Hb. cbn. rewrite Hd. reflexivity.
Qed.

Lemma flush_abort_drops_rest_of_snapshot_witness :
  let s := with_batch_depth 0 (state_after 30 failing_flush_open_prog) in
  let s' := res_state (run 9 2 (with_pending [] s)) in
  pending s = [2; 3]%nat ∧
  _flush_pending (run 9) 10 s = Some (s', Exn) ∧
  pending s' = [] ∧ calls (trace s') = [2; 3; 2]%nat.
Proof.
  intros s s'.
  split_and!; [vm_compute; reflexivity | | vm_compute; reflexivity..].
  apply (flush_abort_drops_rest_of_snapshot (run 9) 9%nat s [] 2%nat [3%nat]
           (with_pending [] s) s' vNone); vm_compute; reflexivity.
Defined.

(** C2 fails as stated: in [failing_flush_prog] the batch leaves both
    reactions pending (it logs the count, 2); at the flush the first one
    raises, the exception reaches the caller, the second reaction has not
    been run again (the calls are 2, 3 at construction and 2 at the flush),
    and the pending count is 0. *)
Lemma flush_abort_counterexample :
  let r := exec 60 failing_flush_prog initial_state in
  raised r = true ∧
  final (λ s, map data <$> logged (trace s) = [[PInt 0]; [PInt 100; PInt 2]] ∧
              calls (trace s) = [2; 3; 2]%nat ∧
              get_pending_count s = 0%nat) r.
Proof. vm_compute. repeat split. Qed.

(** ** Batches *)

Lemma state_eta s : with_pending (pending s) (with_values (values s) s) = s.
Proof. by destruct s. Qed.

Lemma foreach_schedule_in_batch rn l s :
  0 < batch_depth s →
  ∃ P, foreach (schedule rn) l s = ok (with_pending P s) vNone.
Proof.
  intros Hd. revert s Hd. induction l as [|x l IH]; intros s Hd; cbn.
  - exists (pending s). f_equal. f_equal. by destruct s.
  - unfold schedule at 1. destruct (Z.ltb_spec 0 (batch_depth s)); [| lia]. cbn.
    destruct (IH (with_pending (set_add x (pending s)) s)) as [P HP]; [done |].
    exists P. rewrite HP. reflexivity.
Qed.

Lemma body_ok_frame w s s' :
  kinds s' = kinds s → observers s' = observers s →
  (∀ o, is_Some (values s !! o) → is_Some (values s' !! o)) →
  body_ok w s → body_ok w s'.
Proof.
  intros Hk Ho Hv. induction w as [|o v k IH|inner IHi k IHk]; cbn; [done | |].
  - rewrite Hk, Ho. intros (? & ? & ? & ?). split_and!; auto.
  - intros [? ?]. split; auto.
Qed.

Lemma body_values_dom w vals o :
  is_Some (vals !! o) → is_Some (body_values w vals !! o).
Proof.
  revert vals. induction w as [|o' v k IH|inner IHi k IHk]; intros vals H; cbn.
  - done.
  - apply IH. destruct (vals !! o') as [old|] eqn:E; [| done].
    destruct (negb (py_is old v) && py_ne old v); [| done].
    rewrite lookup_insert. case_decide; [by eexists | done].
  - apply IHk, IHi, H.
Qed.

(** Inside a batch, a body changes the cells' values and the pending set
    and nothing else: in particular the trace does not grow, so no wrapped
    function has been invoked. *)
Lemma body_in_batch w n s :
  0 < batch_depth s → body_ok w s → (body_fuel w ≤ n)%nat →
  ∃ P, exec n (body_prog w) s =
       ok (with_pending P (with_values (body_values w (values s)) s)) vNone.
Proof.
  revert n s. induction w as [|o v k IH|inner IHi k IHk]; intros n s Hd Hok Hn.
  - destruct n; [cbn in Hn; lia |]. exists (pending s). cbn.
    by rewrite state_eta.
  - destruct n as [|n]; [cbn in Hn; lia |]. cbn in Hn.
    destruct Hok as (Hk & [old Hv] & [obs Ho] & Hok).
    cbn [body_prog]. rewrite exec_S. cbn [do_cmd].
    rewrite (is_kind_true _ _ _ Hk). unfold _set_direct. rewrite Hv.
    cbn [body_values]. rewrite Hv.
    destruct (negb (py_is old v) && py_ne old v).
    + unfold _notify. cbn [observers with_values]. rewrite Ho.
      destruct (foreach_schedule_in_batch (run n) obs
                  (with_values (<[o:=v]> (values s)) s)) as [P1 HP1]; [done |].
      rewrite HP1. cbn [and_then ok].
      destruct (IH n (with_pending P1 (with_values (<[o:=v]> (values s)) s)))
        as [P HP]; [done | | lia |].
      { eapply body_ok_frame; [| | | exact Hok]; [done | done |].
        intros o' H. cbn. rewrite lookup_insert. case_decide; [by eexists | done]. }
      exists P. rewrite HP. reflexivity.
    + cbn [and_then ok].
      destruct (IH n s) as [P HP]; [done | done | lia |].
      exists P. exact HP.
  - destruct n as [|n]; [cbn in Hn; lia |]. cbn in Hn.
    destruct Hok as [Hoi Hok].
    cbn [body_prog]. rewrite exec_S. cbn [do_cmd]. unfold transaction.
    destruct (IHi n (begin_batch s)) as [P1 HP1];
      [cbn; lia | eapply body_ok_frame; [| | | exact Hoi]; done | lia |].
    rewrite HP1. cbn [ok]. unfold end_batch. cbn [batch_depth with_pending
      with_values begin_batch with_batch_depth].
    replace (batch_depth s + 1 - 1) with (batch_depth s) by lia.
    destruct (Z.eqb_spec (batch_depth s) 0); [lia |]. cbn [ok and_then].
    set (s1 := with_batch_depth _ _).
    destruct (IHk n s1) as [P HP]; [done | | lia |].
    { eapply body_ok_frame; [| | | exact Hok]; [done | done |].
      intros o. apply body_values_dom. }
    exists P. rewrite HP. subst s1. cbn. reflexivity.
Qed.

Lemma foreach_ok_none f l s s' v : foreach f l s = Some (s', Ok v) → v = vNone.
Proof.
  revert s. induction l as [|x l IH]; intros s; cbn.
  - by intros [= _ <-].
  - destruct (f x s) as [[s1 [w|]]|]; cbn; [apply IH | done | done].
Qed.

Lemma flush_ok_none rn n s s' v :
  _flush_pending rn n s = Some (s', Ok v) → v = vNone.
Proof.
  revert s. induction n as [|n IH]; intros s; [done |].
  rewrite flush_S. destruct (pending s) as [|d rest].
  - by intros [= _ <-].
  - destruct (foreach rn (d :: rest) (with_pending [] s)) as [[s1 [w|]]|];
      [apply IH | done | done].
Qed.




(** ** Executions only grow the arena *)

Lemma grows_refl s : grows s s.
Proof. by constructor. Qed.

Lemma grows_trans s1 s2 s3 : grows s1 s2 → grows s2 s3 → grows s1 s3.
Proof.
  intros [] []. constructor; auto.
  - lia.
  - by etrans.
Qed.

Lemma is_Some_insert {A} (m : gmap nat A) i j x :
  is_Some (m !! j) → is_Some (<[i := x]> m !! j).
Proof. intros H. rewrite lookup_insert. case_decide; [by eexists | done]. Qed.

Local Ltac grows_tac :=
  constructor; cbn;
  [ intros; try apply is_Some_insert; auto
  | intros; try apply is_Some_insert; auto
  | auto
  | lia
  | try done; try (by apply prefix_app_r) ].

(** A change outside the observers, dependencies, kinds, counter and trace. *)
Lemma grows_same s s' :
  observers s' = observers s → dependencies s' = dependencies s →
  kinds s' = kinds s → id_counter s' = id_counter s → trace s' = trace s →
  grows s s'.
Proof. intros Ho Hd Hk Hi Ht. constructor; rewrite ?Ho, ?Hd, ?Hk, ?Hi, ?Ht; auto. Qed.

Lemma grows_emit e s : grows s (emit e s).
Proof. grows_tac. Qed.

Lemma grows_track self s s' b : track_read self s = (s', b) → grows s s'.
Proof.
  rewrite track_read_unfold. destruct (current_derivation s) as [d|].
  2: { intros [= <- _]. apply grows_refl. }
  destruct (observers s !! self) as [obs|].
  2: { intros [= <- _]. apply grows_refl. }
  cbn. destruct (dependencies s !! d) as [deps|]; intros [= <- _]; grows_tac.
Qed.

Lemma grows_remove_observer_all self deps s s' b :
  remove_observer_all self deps s = (s', b) → grows s s'.
Proof.
  revert s. induction deps as [|dep rest IH]; intros s; cbn.
  - intros [= <- _]. apply grows_refl.
  - destruct (observers s !! dep) as [obs|].
    2: { intros [= <- _]. apply grows_refl. }
    intros H. apply IH in H. eapply grows_trans; [| exact H]. grows_tac.
Qed.

Lemma grows_detach self s s' b : detach self s = (s', b) → grows s s'.
Proof.
  unfold detach. destruct (dependencies s !! self) as [deps|].
  2: { intros [= <- _]. apply grows_refl. }
  destruct (remove_observer_all self deps s) as [s1 [|]] eqn:E;
    intros [= <- _]; apply grows_remove_observer_all in E; [| done].
  eapply grows_trans; [exact E |]. grows_tac.
Qed.

Lemma insert_fresh_kind (m : gmap nat kind) i0 k0 i k :
  (is_Some (m !! i0) → False) → m !! i = Some k → <[i0 := k0]> m !! i = Some k.
Proof.
  intros Hf H. rewrite lookup_insert. case_decide; [| done].
  subst. destruct Hf. by eexists.
Qed.

Local Ltac fresh_kind_tac s :=
  intros ? ? ?; apply insert_fresh_kind; [| done];
  intros ?%(fresh_kinds s); [lia | done].

Lemma grows_Observable_init v s : ids_fresh s → grows s (Observable_init v s).2.
Proof. intros Hf. grows_tac. fresh_kind_tac s. Qed.

Lemma grows_Computed_init fn s : ids_fresh s → grows s (Computed_init fn s).2.
Proof. intros Hf. grows_tac. fresh_kind_tac s. Qed.

Lemma grows_Reaction_init fn s : ids_fresh s → grows s (Reaction_init fn s).2.
Proof. intros Hf. grows_tac. fresh_kind_tac s. Qed.

Lemma grows_DataReaction_init fn eff s :
  ids_fresh s → grows s (DataReaction_init fn eff s).2.
Proof. intros Hf. grows_tac. fresh_kind_tac s. Qed.

(** ** Lifting a property of the elementary updates to executions *)

Section Lifting.
Variable P : state → Prop.

Hypothesis P_fresh : ∀ s, P s → ids_fresh s.
Hypothesis P_frame : ∀ s s', core s' = core s → P s → P s'.
Hypothesis P_track : ∀ self s s' b, P s → track_read self s = (s', b) → P s'.
Hypothesis P_detach : ∀ self s s' b, P s → detach self s = (s', b) → P s'.
Hypothesis P_enter :
  ∀ d s, P s → is_Some (dependencies s !! d) → P (with_current (Some d) s).
Hypothesis P_leave :
  ∀ s0 s, P s0 → P s → grows s0 s → P (with_current (current_derivation s0) s).
Hypothesis P_emit : ∀ e s, silent e = true → P s → P (emit e s).
Hypothesis P_Observable_init : ∀ v s, P s → P (Observable_init v s).2.
Hypothesis P_Computed_init : ∀ fn s, P s → P (Computed_init fn s).2.
Hypothesis P_Reaction_init : ∀ fn s, P s → P (Reaction_init fn s).2.
Hypothesis P_DataReaction_init :
  ∀ fn eff s, P s → P (DataReaction_init fn eff s).2.
Hypothesis P_clear :
  ∀ c s, P s → is_Some (observers s !! c) →
         P (with_observers (<[c := []]> (observers s)) (emit (EvDispose c) s)).

Local Ltac framed :=
  split; [eapply P_frame; [| eassumption]; reflexivity
         | apply grows_same; reflexivity].

Local Ltac chain H :=
  let HP := fresh "HP" in let HG := fresh "HG" in
  destruct H as [HP HG]; [eassumption.. |].

Lemma keeps_ok v : keeps P (λ s, ok s v).
Proof. intros s s' o HP [= <- _]. split; [done | apply grows_refl]. Qed.

Lemma keeps_exn : keeps P exn.
Proof. intros s s' o HP [= <- _]. split; [done | apply grows_refl]. Qed.

Lemma keeps_and_then f k :
  keeps P f → (∀ v, keeps P (k v)) → keeps P (λ s, and_then (f s) k).
Proof.
  intros Hf Hk s s' o HP. cbn. destruct (f s) as [[s1 [v|]]|] eqn:E; cbn.
  - intros H. destruct (Hf _ _ _ HP E) as [HP1 HG1].
    destruct (Hk v _ _ _ HP1 H) as [HP2 HG2].
    split; [done | by eapply grows_trans].
  - intros [= <- <-]. by eapply Hf.
  - done.
Qed.

Lemma keeps_foreach f l : (∀ x, keeps P (f x)) → keeps P (foreach f l).
Proof.
  intros Hf. induction l as [|x l IH]; cbn.
  - apply keeps_ok.
  - apply (keeps_and_then (f x) (λ _, foreach f l)); auto.
Qed.

Lemma keeps_schedule rn d : (∀ x, keeps P (rn x)) → keeps P (schedule rn d).
Proof.
  intros Hr s s' o HP. unfold schedule. destruct (0 <? batch_depth s).
  - intros [= <- _]. framed.
  - by apply Hr.
Qed.

Lemma keeps_flush rn n : (∀ x, keeps P (rn x)) → keeps P (_flush_pending rn n).
Proof.
  intros Hr. induction n as [|n IH]; intros s s' o HP; [done |].
  rewrite flush_S. destruct (pending s) as [|d rest] eqn:Hp.
  - by apply keeps_ok.
  - intros H.
    assert (P (with_pending [] s) ∧ grows s (with_pending [] s)) as [HP0 HG0]
      by framed.
    destruct (keeps_and_then (foreach rn (d :: rest))
                (λ _, _flush_pending rn n)
                (keeps_foreach rn _ Hr) (λ _, IH) _ _ _ HP0 H) as [HP1 HG1].
    split; [done | by eapply grows_trans].
Qed.

Lemma keeps_end_batch rn n : (∀ x, keeps P (rn x)) → keeps P (end_batch rn n).
Proof.
  intros Hr s s' o HP. unfold end_batch.
  set (s1 := with_batch_depth _ s).
  assert (P s1 ∧ grows s s1) as [HP1 HG1] by framed.
  destruct (batch_depth s1 =? 0).
  - intros H. destruct (keeps_flush rn n Hr _ _ _ HP1 H).
    split; [done | by eapply grows_trans].
  - intros [= <- _]. done.
Qed.

Lemma keeps_notify rn o : (∀ x, keeps P (rn x)) → keeps P (_notify rn o).
Proof.
  intros Hr s s' r HP. unfold _notify. destruct (observers s !! o).
  - apply keeps_foreach; [| done]. intros x. by apply keeps_schedule.
  - by apply keeps_exn.
Qed.

Lemma keeps_set_direct rn o v :
  (∀ x, keeps P (rn x)) → keeps P (_set_direct rn o v).
Proof.
  intros Hr s s' r HP. unfold _set_direct. destruct (values s !! o) as [old|].
  2: by apply keeps_exn.
  destruct (negb (py_is old v) && py_ne old v).
  2: by apply keeps_ok.
  intros H. set (s1 := with_values _ s) in H.
  assert (P s1 ∧ grows s s1) as [HP1 HG1] by framed.
  destruct (keeps_notify rn o Hr _ _ _ HP1 H).
  split; [done | by eapply grows_trans].
Qed.

Lemma keeps_Observable_get o : keeps P (Observable_get o).
Proof.
  intros s s' r HP. rewrite Observable_get_eq.
  destruct (track_read o s) as [s1 b] eqn:E.
  assert (P s1 ∧ grows s s1) as [HP1 HG1]
    by (split; [by eapply P_track | by eapply grows_track]).
  destruct b; [destruct (values s1 !! o) |]; by intros [= <- _].
Qed.

Lemma keeps_Computed_run rn c : (∀ x, keeps P (rn x)) → keeps P (Computed_run rn c).
Proof.
  intros Hr s s' r HP. unfold Computed_run.
  destruct (dirty_flags s !! c) as [[|]|]; [by apply keeps_ok | | by apply keeps_exn].
  set (s1 := with_dirty_flags _ s).
  assert (P s1 ∧ grows s s1) as [HP1 HG1] by framed.
  destruct (observers s1 !! c) as [obs|].
  - intros H.
    destruct (keeps_foreach (schedule rn) obs
                (λ x, keeps_schedule rn x Hr) _ _ _ HP1 H).
    split; [done | by eapply grows_trans].
  - by intros [= <- _].
Qed.

Lemma detach_true self s s1 :
  detach self s = (s1, true) → dependencies s1 !! self = Some [].
Proof.
  unfold detach. destruct (dependencies s !! self); [| done].
  destruct (remove_observer_all self l s) as [s2 [|]]; [| done].
  intros [= <-]. cbn. apply lookup_insert_eq.
Qed.

(** [token = current_derivation.set(d); try: f() finally: reset(token)] *)
Lemma keeps_region f d s s' o :
  keeps P f → P s → is_Some (dependencies s !! d) →
  finally_reset (current_derivation s) (f (with_current (Some d) s)) = Some (s', o) →
  P s' ∧ grows s s'.
Proof.
  intros Hf HP Hd. unfold finally_reset.
  destruct (f (with_current (Some d) s)) as [[s2 o2]|] eqn:E; [| done].
  intros [= <- <-].
  destruct (Hf _ _ _ (P_enter d s HP Hd) E) as [HP2 HG2].
  assert (grows s s2) as HG.
  { eapply grows_trans; [| exact HG2]. by apply grows_same. }
  split; [by apply P_leave |].
  eapply grows_trans; [exact HG |]. by apply grows_same.
Qed.

Lemma keeps_emit_then e (f : state → res) :
  silent e = true → keeps P f → keeps P (λ s, f (emit e s)).
Proof.
  intros He Hf s s' o HP H.
  destruct (Hf _ _ _ (P_emit e s He HP) H) as [HP1 HG1].
  split; [done |]. eapply grows_trans; [apply grows_emit | done].
Qed.

Section WithExec.
Variable ex : prog → state → res.
Variable rn : nat → state → res.
Hypothesis Hex : ∀ p, keeps P (ex p).
Hypothesis Hrn : ∀ d, keeps P (rn d).

Lemma keeps_call_tracked d s s' o :
  P s → is_Some (dependencies s !! d) →
  call_tracked ex d s = Some (s', o) → P s' ∧ grows s s'.
Proof.
  intros HP Hd. unfold call_tracked.
  apply (keeps_region
           (λ s1, match derivation_fns s1 !! d with
                  | None => exn s1
                  | Some fn => ex fn (emit (EvCall d) s1)
                  end)); [| done | done].
  intros s1 s2 o2 HP1. cbn. destruct (derivation_fns s1 !! d) as [fn|].
  - by apply (keeps_emit_then (EvCall d) (ex fn)).
  - by apply keeps_exn.
Qed.

Lemma keeps_Reaction_run r : keeps P (Reaction_run ex r).
Proof.
  intros s s' o HP. unfold Reaction_run.
  destruct (disposed s !! r) as [[|]|]; [by apply keeps_ok | | by apply keeps_exn].
  destruct (detach r s) as [s1 [|]] eqn:E.
  2: { intros [= <- _]. split; [by eapply P_detach | by eapply grows_detach]. }
  pose proof (P_detach _ _ _ _ HP E) as HP1.
  pose proof (grows_detach _ _ _ _ E) as HG1.
  destruct (call_tracked ex r s1) as [[s2 [v|]]|] eqn:C; cbn; [| | done].
  - intros [= <- _].
    destruct (keeps_call_tracked r s1 s2 (Ok v)) as [HP2 HG2];
      [done | by rewrite (detach_true _ _ _ E) | done |].
    split; [done | by eapply grows_trans].
  - intros [= <- _].
    destruct (keeps_call_tracked r s1 s2 Exn) as [HP2 HG2];
      [done | by rewrite (detach_true _ _ _ E) | done |].
    split; [done | by eapply grows_trans].
Qed.

Lemma keeps_DataReaction_gate r v : keeps P (DataReaction_gate ex r v).
Proof.
  intros s s' o HP. unfold DataReaction_gate.
  destruct (initialized s !! r) as [init|]; [| by apply keeps_exn].
  destruct (last_value s !! r) as [last|]; [| by apply keeps_exn].
  destruct (negb init || py_ne v last); [| by apply keeps_ok].
  set (s1 := with_initialized _ _).
  assert (P s1 ∧ grows s s1) as [HP1 HG1] by framed.
  destruct (effect_fns s1 !! r) as [eff|].
  2: by intros [= <- _].
  intros H.
  destruct (keeps_and_then (λ s, ex (eff v) (emit (EvEffect r v) s))
              (λ _ s2, ok s2 vNone)
              (keeps_emit_then (EvEffect r v) (ex (eff v)) eq_refl (Hex _))
              (λ _, keeps_ok vNone) _ _ _ HP1 H) as [HP2 HG2].
  split; [done | by eapply grows_trans].
Qed.

Lemma keeps_DataReaction_run r : keeps P (DataReaction_run ex r).
Proof.
  intros s s' o HP. unfold DataReaction_run.
  destruct (disposed s !! r) as [[|]|]; [by apply keeps_ok | | by apply keeps_exn].
  destruct (detach r s) as [s1 [|]] eqn:E.
  2: { intros [= <- _]. split; [by eapply P_detach | by eapply grows_detach]. }
  pose proof (P_detach _ _ _ _ HP E) as HP1.
  pose proof (grows_detach _ _ _ _ E) as HG1.
  destruct (call_tracked ex r s1) as [[s2 [v|]]|] eqn:C; cbn; [| | done].
  - intros H.
    destruct (keeps_call_tracked r s1 s2 (Ok v)) as [HP2 HG2];
      [done | by rewrite (detach_true _ _ _ E) | done |].
    destruct (keeps_DataReaction_gate r v _ _ _ HP2 H) as [HP3 HG3].
    split; [done |]. eapply grows_trans; [exact HG1 |]. by eapply grows_trans.
  - intros [= <- _].
    destruct (keeps_call_tracked r s1 s2 Exn) as [HP2 HG2];
      [done | by rewrite (detach_true _ _ _ E) | done |].
    split; [done | by eapply grows_trans].
Qed.

Lemma keeps_Computed_recompute c : keeps P (Computed_recompute ex c).
Proof.
  intros s s' o HP. unfold Computed_recompute.
  destruct (detach c s) as [s1 [|]] eqn:E.
  2: { intros [= <- _]. split; [by eapply P_detach | by eapply grows_detach]. }
  pose proof (P_detach _ _ _ _ HP E) as HP1.
  pose proof (grows_detach _ _ _ _ E) as HG1.
  set (f := λ s2 : state,
         match derivation_fns s2 !! c with
         | None => exn s2
         | Some fn =>
           and_then (ex fn (emit (EvCall c) s2))
             (λ v s3, ok (with_cached_values (<[c := v]> (cached_values s3)) s3) v)
         end).
  assert (keeps P f) as Hf.
  { intros s2 s3 o3 HP2. unfold f. destruct (derivation_fns s2 !! c) as [fn|].
    - apply (keeps_and_then (λ s, ex fn (emit (EvCall c) s))
               (λ v s3, ok (with_cached_values (<[c := v]> (cached_values s3)) s3) v));
        [by apply keeps_emit_then | | done].
      intros v s4 s5 o5 HP4 [= <- _]. framed.
    - by apply keeps_exn. }
  change (and_then (finally_reset (current_derivation s1) (f (with_current (Some c) s1)))
            (λ _ s4, ok (with_dirty_flags (<[c := false]> (dirty_flags s4)) s4) vNone)
          = Some (s', o) → P s' ∧ grows s s').
  destruct (finally_reset _ _) as [[s4 [v|]]|] eqn:R; cbn; [| | done].
  - intros [= <- _].
    destruct (keeps_region f c s1 s4 (Ok v)) as [HP4 HG4];
      [done | done | by rewrite (detach_true _ _ _ E) | done |].
    split; [eapply P_frame; [| exact HP4]; reflexivity |].
    eapply grows_trans; [exact HG1 |]. eapply grows_trans; [exact HG4 |].
    by apply grows_same.
  - intros [= <- _].
    destruct (keeps_region f c s1 s4 Exn) as [HP4 HG4];
      [done | done | by rewrite (detach_true _ _ _ E) | done |].
    split; [done | by eapply grows_trans].
Qed.

Lemma keeps_Computed_get c : keeps P (Computed_get ex c).
Proof.
  intros s s' o HP. rewrite Computed_get_eq.
  destruct (track_read c s) as [s1 b] eqn:E.
  assert (P s1 ∧ grows s s1) as [HP1 HG1]
    by (split; [by eapply P_track | by eapply grows_track]).
  destruct b; [| by intros [= <- _]].
  destruct (dirty_flags s1 !! c) as [dirty|]; [| by intros [= <- _]].
  intros H.
  destruct (keeps_and_then
              (λ s1, if dirty : bool then Computed_recompute ex c s1 else ok s1 vNone)
              (λ _ s2, match cached_values s2 !! c with
                       | None => exn s2
                       | Some v => ok s2 v
                       end)) with (s := s1) (s' := s') (o := o) as [HP2 HG2];
    [| | done | done |].
  - destruct dirty; [apply keeps_Computed_recompute | apply keeps_ok].
  - intros _ s2 s3 o3 HP2. destruct (cached_values s2 !! c); by intros [= <- _].
  - split; [done | by eapply grows_trans].
Qed.

Lemma keeps_Computed_dispose c : keeps P (Computed_dispose c).
Proof.
  intros s s' o HP. unfold Computed_dispose.
  destruct (detach c s) as [s1 b] eqn:E.
  pose proof (P_detach _ _ _ _ HP E) as HP1.
  pose proof (grows_detach _ _ _ _ E) as HG1.
  destruct b; [| by intros [= <- _]].
  destruct (observers s1 !! c) as [obs|] eqn:Ho; [| by intros [= <- _]].
  intros [= <- _].
  assert (is_Some (observers s1 !! c)) as Hs by by eexists.
  pose proof (P_clear c s1 HP1 Hs) as HP2.
  split; [eapply P_frame; [| exact HP2]; reflexivity |].
  eapply grows_trans; [exact HG1 |].
  constructor; cbn; auto; [intros; by apply is_Some_insert | by apply prefix_app_r].
Qed.

Lemma keeps_Reaction_dispose r : keeps P (Reaction_dispose r).
Proof.
  intros s s' o HP. unfold Reaction_dispose.
  set (s0 := with_disposed _ s).
  assert (P s0 ∧ grows s s0) as [HP0 HG0] by framed.
  destruct (detach r s0) as [s1 b] eqn:E.
  pose proof (P_detach _ _ _ _ HP0 E) as HP1.
  pose proof (grows_detach _ _ _ _ E) as HG1.
  destruct b; intros [= <- _]; (split; [done | by eapply grows_trans]).
Qed.

Lemma keeps_autorun fn : keeps P (autorun ex fn).
Proof.
  intros s s' o HP. unfold autorun.
  pose proof (P_Reaction_init fn s HP) as HP1.
  pose proof (grows_Reaction_init fn s (P_fresh s HP)) as HG1.
  destruct (Reaction_init fn s) as [r s1] eqn:E. cbn in HP1, HG1.
  intros H.
  destruct (keeps_and_then (Reaction_run ex r) (λ _ s2, ok s2 (vRef r))
              (keeps_Reaction_run r) (λ _, keeps_ok _) _ _ _ HP1 H).
  split; [done | by eapply grows_trans].
Qed.

Lemma keeps_reaction data eff fire : keeps P (reaction ex data eff fire).
Proof.
  intros s s' o HP. unfold reaction.
  pose proof (P_DataReaction_init data eff s HP) as HP1.
  pose proof (grows_DataReaction_init data eff s (P_fresh s HP)) as HG1.
  destruct (DataReaction_init data eff s) as [r s1] eqn:E. cbn in HP1, HG1.
  assert (is_Some (dependencies s1 !! r)) as Hd.
  { unfold DataReaction_init, new_id in E. injection E as <- <-. cbn.
    rewrite lookup_insert_eq. by eexists. }
  destruct fire.
  - intros H.
    destruct (keeps_and_then (DataReaction_run ex r) (λ _ s2, ok s2 (vRef r))
                (keeps_DataReaction_run r) (λ _, keeps_ok _) _ _ _ HP1 H).
    split; [done | by eapply grows_trans].
  - set (f := λ s2 : state,
           and_then (ex data (emit (EvCall r) s2))
             (λ v s3,
                ok (with_initialized (<[r := true]> (initialized s3))
                      (with_last_value (<[r := v]> (last_value s3)) s3)) vNone)).
    assert (keeps P f) as Hf.
    { apply (keeps_and_then (λ s, ex data (emit (EvCall r) s))
               (λ v s3,
                  ok (with_initialized (<[r := true]> (initialized s3))
                        (with_last_value (<[r := v]> (last_value s3)) s3)) vNone));
        [by apply keeps_emit_then |].
      intros v s4 s5 o5 HP4 [= <- _]. framed. }
    change (and_then (finally_reset (current_derivation s1) (f (with_current (Some r) s1)))
              (λ _ s4, ok s4 (vRef r)) = Some (s', o) → P s' ∧ grows s s').
    destruct (finally_reset _ _) as [[s4 [v|]]|] eqn:R; cbn; [| | done].
    + intros [= <- _].
      destruct (keeps_region f r s1 s4 (Ok v)) as [HP4 HG4]; [done.. |].
      split; [done | by eapply grows_trans].
    + intros [= <- _].
      destruct (keeps_region f r s1 s4 Exn) as [HP4 HG4]; [done.. |].
      split; [done | by eapply grows_trans].
Qed.

Lemma keeps_transaction n body : keeps P (transaction ex rn n body).
Proof.
  intros s s' o HP. unfold transaction.
  assert (P (begin_batch s) ∧ grows s (begin_batch s)) as [HP0 HG0] by framed.
  destruct (ex body (begin_batch s)) as [[s1 o1]|] eqn:E; [| done].
  destruct (Hex _ _ _ _ HP0 E) as [HP1 HG1].
  destruct (end_batch rn n s1) as [[s2 [v|]]|] eqn:F; [| | done].
  - intros [= <- _]. destruct (keeps_end_batch rn n Hrn _ _ _ HP1 F).
    split; [done |]. eapply grows_trans; [exact HG0 |]. by eapply grows_trans.
  - intros [= <- _]. destruct (keeps_end_batch rn n Hrn _ _ _ HP1 F).
    split; [done |]. eapply grows_trans; [exact HG0 |]. by eapply grows_trans.
Qed.

Lemma keeps_do_cmd n c : keeps P (do_cmd ex rn n c).
Proof.
  destruct c; unfold do_cmd.
  - intros s s' o HP.
    pose proof (P_Observable_init v s HP) as HP1.
    pose proof (grows_Observable_init v s (P_fresh s HP)) as HG1.
    destruct (Observable_init v s) as [i s1]. cbn in HP1, HG1 |- *.
    by intros [= <- _].
  - intros s s' o HP.
    pose proof (P_Computed_init fn s HP) as HP1.
    pose proof (grows_Computed_init fn s (P_fresh s HP)) as HG1.
    destruct (Computed_init fn s) as [i s1]. cbn in HP1, HG1 |- *.
    by intros [= <- _].
  - apply keeps_autorun.
  - apply keeps_reaction.
  - intros s s' r HP. destruct (is_kind KObservable o s);
      [by apply keeps_Observable_get | by apply keeps_exn].
  - intros s s' r HP. destruct (is_kind KObservable o s);
      [by apply keeps_set_direct | by apply keeps_exn].
  - intros s s' r HP. destruct (is_kind KComputed c s);
      [by apply keeps_Computed_get | by apply keeps_exn].
  - intros s s' r HP. destruct (is_kind KComputed c s);
      [by apply keeps_Computed_dispose | by apply keeps_exn].
  - intros s s' o HP. destruct (is_kind KReaction r s || is_kind KDataReaction r s);
      [by apply keeps_Reaction_dispose | by apply keeps_exn].
  - intros s s' o HP [= <- _]. framed.
  - by apply keeps_end_batch.
  - apply keeps_transaction.
  - intros s s' o HP [= <- _]. split; [done | apply grows_refl].
  - intros s s' o HP [= <- _].
    split; [by apply P_emit | apply grows_emit].
Qed.

Lemma keeps_run_body d : keeps P (run_body ex rn d).
Proof.
  intros s s' o HP. unfold run_body.
  destruct (kinds s !! d) as [[| | |]|];
    [by apply keeps_exn | by apply keeps_Computed_run
    | by apply keeps_Reaction_run | by apply keeps_DataReaction_run
    | by apply keeps_exn].
Qed.
End WithExec.

(** Every execution, of user code or of a derivation, keeps [P] and only
    grows the arena. *)
Lemma exec_run_keep n : (∀ p, keeps P (exec n p)) ∧ (∀ d, keeps P (run n d)).
Proof.
  induction n as [|n [IHe IHr]]; [by split |]. split.
  - intros p. destruct p as [v| |c k]; rewrite ?exec_S.
    + intros s s' o HP. rewrite exec_S. by apply keeps_ok.
    + intros s s' o HP. rewrite exec_S. by apply keeps_exn.
    + intros s s' o HP. rewrite exec_S.
      by apply (keeps_and_then (do_cmd (exec n) (run n) n c)
                  (λ v s', exec n (k v) s')
                  (keeps_do_cmd (exec n) (run n) IHe IHr n c) (λ v, IHe (k v))).
  - intros d s s' o HP. rewrite run_S. by apply keeps_run_body.
Qed.
End Lifting.

(** ** Sets as lists *)

Lemma elem_of_set_add y x l : y ∈ set_add x l ↔ y = x ∨ y ∈ l.
Proof. unfold set_add. destruct (decide (x ∈ l)); set_solver. Qed.

Lemma elem_of_set_discard y x l : y ∈ set_discard x l ↔ y ≠ x ∧ y ∈ l.
Proof. unfold set_discard. rewrite list_elem_of_filter. tauto. Qed.

Lemma set_discard_idem x l : set_discard x (set_discard x l) = set_discard x l.
Proof.
  unfold set_discard. induction l as [|y l IH]; [done |].
  rewrite filter_cons. case_decide; [| done].
  rewrite filter_cons. case_decide; [| done]. by rewrite IH.
Qed.

(** ** What the edge operations do to a well-formed arena *)

Lemma with_observers_eta s : with_observers (observers s) s = s.
Proof. by destruct s. Qed.

Lemma remove_observer_all_spec self deps s :
  (∀ a, a ∈ deps → is_Some (observers s !! a)) →
  ∃ m, remove_observer_all self deps s = (with_observers m s, true) ∧
       ∀ a, m !! a =
            (λ l, if decide (a ∈ deps) then set_discard self l else l)
              <$> observers s !! a.
Proof.
  revert s. induction deps as [|dep rest IH]; intros s He.
  - exists (observers s). cbn. rewrite with_observers_eta. split; [done |].
    intros a. destruct (observers s !! a); cbn; [| done].
    by rewrite decide_False by set_solver.
  - cbn. destruct (He dep) as [obs Ho]; [set_solver |]. rewrite Ho.
    destruct (IH (with_observers (<[dep := set_discard self obs]> (observers s)) s))
      as (m & Hm & Hl).
    { intros a Ha. cbn. apply is_Some_insert, He. set_solver. }
    exists m. split; [exact Hm |]. intros a. rewrite Hl. cbn.
    rewrite lookup_insert. destruct (decide (dep = a)) as [<-|Hne].
    + rewrite Ho. cbn. rewrite (decide_True (P := dep ∈ dep :: rest)) by set_solver.
      destruct (decide (dep ∈ rest)); [by rewrite set_discard_idem | done].
    + destruct (observers s !! a); cbn; [| done].
      f_equal. destruct (decide (a ∈ rest)), (decide (a ∈ dep :: rest)); set_solver.
Qed.

Lemma detach_spec self s s' b :
  graph_inv s → detach self s = (s', b) →
  (dependencies s !! self = None ∧ s' = s) ∨
  ∃ deps m,
    dependencies s !! self = Some deps ∧
    s' = emit (EvDetach self)
           (with_dependencies (<[self := []]> (dependencies s)) (with_observers m s)) ∧
    ∀ a, m !! a =
         (λ l, if decide (a ∈ deps) then set_discard self l else l)
           <$> observers s !! a.
Proof.
  intros Hi. unfold detach. destruct (dependencies s !! self) as [deps|] eqn:Hd.
  2: { intros [= <- _]. by left. }
  destruct (remove_observer_all_spec self deps s) as (m & Hm & Hl).
  { intros a Ha. by eapply gi_sources. }
  rewrite Hm. intros [= <- _]. right. by exists deps, m.
Qed.

Lemma track_spec self s s' b :
  graph_inv s → track_read self s = (s', b) →
  s' = s ∨
  ∃ d obs deps,
    current_derivation s = Some d ∧ observers s !! self = Some obs ∧
    dependencies s !! d = Some deps ∧
    s' = emit (EvRead d self)
           (with_dependencies (<[d := set_add self deps]> (dependencies s))
              (with_observers (<[self := set_add d obs]> (observers s)) s)).
Proof.
  intros Hi. rewrite track_read_unfold. destruct (current_derivation s) as [d|] eqn:Hc.
  2: { intros [= <- _]. by left. }
  destruct (observers s !! self) as [obs|] eqn:Ho.
  2: { intros [= <- _]. by left. }
  cbn. destruct (gi_current s Hi d Hc) as [deps Hd]. rewrite Hd.
  intros [= <- _]. right. by exists d, obs, deps.
Qed.

(** ** The invariant is kept by every elementary update *)

(** Projections of updated states, without unfolding anything else. *)
Local Ltac sproj :=
  cbn [values observers dependencies dirty_flags cached_values derivation_fns
       disposed id_counter effect_fns last_value initialized kinds
       current_derivation batch_depth pending trace
       with_values with_observers with_dependencies with_dirty_flags
       with_cached_values with_derivation_fns with_disposed with_id_counter
       with_effect_fns with_last_value with_initialized with_kinds with_current
       with_batch_depth with_pending with_trace emit] in *.

Lemma tracked_snoc d t e : tracked d (t ++ [e]) = tracked_step d (tracked d t) e.
Proof. unfold tracked. by rewrite foldl_app. Qed.

Lemma tracked_nil d t : (∀ a, EvRead d a ∉ t) → tracked d t = [].
Proof.
  induction t as [|e t IH] using rev_ind; intros H; [done |].
  rewrite tracked_snoc, IH.
  - destruct e; cbn; try done.
    + destruct (decide (d0 = d)) as [->|]; [| done].
      destruct (H n). set_solver.
    + by destruct (decide (d0 = d)).
  - intros a Ha. apply (H a). set_solver.
Qed.

Lemma inv_fresh s : inv s → ids_fresh s.
Proof. by intros [[] _]. Qed.

Lemma inv_frame s s' : core s' = core s → inv s → inv s'.
Proof.
  intros [= Ho Hd Hc Ht Hk Hi] [[[] ? ? ? ?] Hfd].
  split; [constructor; [constructor |..] |]; unfold fresh_deps;
    rewrite ?Ho, ?Hd, ?Hc, ?Ht, ?Hk, ?Hi; done.
Qed.

Lemma inv_emit e s : silent e = true → inv s → inv (emit e s).
Proof.
  intros He [[[] ? ? ? Hdo] Hfd].
  split; [constructor; [constructor |..] |]; sproj; try done.
  - intros d a [H|H]%elem_of_app; [eauto |].
    apply list_elem_of_singleton in H. by subst.
  - intros b l a Hb Ha Hn. eapply Hdo; [done.. |]. set_solver.
  - intros d l Hd a. sproj. rewrite tracked_snoc, (Hfd d l Hd a).
    by destruct e.
Qed.

Lemma inv_enter d s :
  inv s → is_Some (dependencies s !! d) → inv (with_current (Some d) s).
Proof.
  intros [[[] ? ? ? ?] Hfd] Hd.
  split; [constructor; [constructor |..] |]; try done.
  sproj. by intros ? [= <-].
Qed.

Lemma inv_leave s0 s :
  inv s0 → inv s → grows s0 s → inv (with_current (current_derivation s0) s).
Proof.
  intros [[_ Hc0 _ _ _] _] [[[] ? ? ? ?] Hfd] Hg.
  split; [constructor; [constructor |..] |]; try done.
  sproj. intros d Hd. by apply (grows_dependencies _ _ Hg), Hc0.
Qed.

Local Ltac ins H :=
  rewrite lookup_insert in H; case_decide; simplify_eq.

Lemma is_Some_insert_inv {A} (m : gmap nat A) i j x :
  is_Some (<[i := x]> m !! j) → j = i ∨ is_Some (m !! j).
Proof. rewrite lookup_insert. case_decide; auto. Qed.

Lemma inv_track self s s' b : inv s → track_read self s = (s', b) → inv s'.
Proof.
  intros Hi Ht. destruct (track_spec self s s' b (proj1 Hi) Ht)
    as [->|(d & obs & deps & Hc & Ho & Hd & ->)]; [done |].
  destruct Hi as [[[Fo Fd Fk Fmo Fmd Ftr] Hcur Hsrc Hod Hdo] Hfd].
  assert (d < id_counter s)%nat as Hdlt by (apply Fd; by eexists).
  assert (self < id_counter s)%nat as Hslt by (apply Fo; by eexists).
  split; [constructor; [constructor |..] | unfold fresh_deps]; sproj.
  - intros i [->|H]%is_Some_insert_inv; auto.
  - intros i [->|H]%is_Some_insert_inv; auto.
  - done.
  - intros i l x Hl Hx. ins Hl; [| by eauto].
    apply elem_of_set_add in Hx as [->|Hx]; [done | by eauto].
  - intros i l x Hl Hx. ins Hl; [| by eauto].
    apply elem_of_set_add in Hx as [->|Hx]; [done | by eauto].
  - intros d' a [H|H]%elem_of_app; [by eauto |].
    apply list_elem_of_singleton in H. by simplify_eq.
  - intros d' Hd'. apply is_Some_insert. eauto.
  - intros b' l a Hl Ha. ins Hl.
    + apply elem_of_set_add in Ha as [->|Ha].
      * rewrite lookup_insert_eq. by eexists.
      * apply is_Some_insert. eauto.
    + apply is_Some_insert. eauto.
  - intros a l b' Hl Hb. ins Hl.
    + apply elem_of_set_add in Hb as [->|Hb].
      * rewrite lookup_insert_eq. eexists. split; [done |]. apply set_add_elem.
      * destruct (Hod _ _ _ Ho Hb) as (l' & Hl' & Hin).
        rewrite lookup_insert. case_decide; simplify_eq.
        -- eexists. split; [done |]. apply set_add_elem.
        -- eauto.
    + destruct (Hod _ _ _ Hl Hb) as (l' & Hl' & Hin).
      rewrite lookup_insert. case_decide; simplify_eq; [| by eauto].
      eexists. split; [done |]. apply elem_of_set_add. auto.
  - intros b' l a Hl Ha Hn.
    assert (EvDispose a ∉ trace s) as Hn' by set_solver.
    ins Hl.
    + apply elem_of_set_add in Ha as [->|Ha].
      * rewrite lookup_insert_eq. eexists. split; [done |]. apply set_add_elem.
      * destruct (Hdo _ _ _ Hd Ha Hn') as (l' & Hl' & Hin).
        rewrite lookup_insert. case_decide; simplify_eq.
        -- eexists. split; [done |]. apply set_add_elem.
        -- eauto.
    + destruct (Hdo _ _ _ Hl Ha Hn') as (l' & Hl' & Hin).
      rewrite lookup_insert. case_decide; simplify_eq; [| by eauto].
      eexists. split; [done |]. apply elem_of_set_add. auto.
  - intros d' l Hl a. rewrite tracked_snoc. cbn [tracked_step].
    ins Hl.
    + rewrite elem_of_set_add, elem_of_cons. by rewrite (Hfd _ _ Hd a).
    + by apply Hfd.
Qed.

Lemma inv_detach self s s' b : inv s → detach self s = (s', b) → inv s'.
Proof.
  intros Hi Ht. destruct (detach_spec self s s' b (proj1 Hi) Ht)
    as [[_ ->]|(deps & m & Hd & -> & Hm)]; [done |].
  destruct Hi as [[[Fo Fd Fk Fmo Fmd Ftr] Hcur Hsrc Hod Hdo] Hfd].
  assert (∀ a, is_Some (m !! a) ↔ is_Some (observers s !! a)) as Hdom.
  { intros a. rewrite Hm. apply fmap_is_Some. }
  assert (∀ a l x, m !! a = Some l → x ∈ l →
            ∃ l0, observers s !! a = Some l0 ∧ x ∈ l0 ∧ (a ∈ deps → x ≠ self))
    as Hsub.
  { intros a l x Hl Hx. rewrite Hm in Hl.
    destruct (observers s !! a) as [l0|]; [| done]. cbn in Hl. simplify_eq.
    exists l0. split; [done |]. destruct (decide (a ∈ deps)).
    - apply elem_of_set_discard in Hx as [? ?]. done.
    - done. }
  split; [constructor; [constructor |..] | unfold fresh_deps]; sproj.
  - intros i H. apply Fo. by apply Hdom.
  - intros i [->|H]%is_Some_insert_inv; [apply Fd; by eexists | auto].
  - done.
  - intros i l x Hl Hx. destruct (Hsub _ _ _ Hl Hx) as (l0 & ? & ? & _). eauto.
  - intros i l x Hl Hx. ins Hl; [set_solver | eauto].
  - intros d' a [H|H]%elem_of_app; [by eauto |].
    apply list_elem_of_singleton in H. by simplify_eq.
  - intros d' Hd'. apply is_Some_insert. eauto.
  - intros b' l a Hl Ha. ins Hl; [set_solver |]. apply Hdom. eauto.
  - intros a l b' Hl Hb.
    destruct (Hsub _ _ _ Hl Hb) as (l0 & Hl0 & Hb0 & Hne).
    destruct (Hod _ _ _ Hl0 Hb0) as (l' & Hl' & Hin).
    rewrite lookup_insert. case_decide; simplify_eq; [| by eauto].
    by destruct Hne.
  - intros b' l a Hl Ha Hn.
    assert (EvDispose a ∉ trace s) as Hn' by set_solver.
    ins Hl; [set_solver |].
    destruct (Hdo _ _ _ Hl Ha Hn') as (l' & Hl' & Hin).
    rewrite Hm, Hl'. cbn. eexists. split; [done |].
    destruct (decide (a ∈ deps)); [| done].
    apply elem_of_set_discard. done.
  - intros d' l Hl a. rewrite tracked_snoc. cbn [tracked_step].
    ins Hl; [set_solver | by apply Hfd].
Qed.

Lemma inv_clear c s :
  inv s → is_Some (observers s !! c) →
  inv (with_observers (<[c := []]> (observers s)) (emit (EvDispose c) s)).
Proof.
  intros [[[Fo Fd Fk Fmo Fmd Ftr] Hcur Hsrc Hod Hdo] Hfd] Hc.
  split; [constructor; [constructor |..] | unfold fresh_deps]; sproj; try done.
  - intros i [->|H]%is_Some_insert_inv; auto.
  - intros i l x Hl Hx. ins Hl; [set_solver | eauto].
  - intros d' a [H|H]%elem_of_app; [by eauto |].
    apply list_elem_of_singleton in H. by simplify_eq.
  - intros b' l a Hl Ha. apply is_Some_insert. eauto.
  - intros a l b' Hl Hb. ins Hl; [set_solver | eauto].
  - intros b' l a Hl Ha Hn.
    assert ((EvDispose a ∉ trace s) ∧ a ≠ c) as [Hn' Hne] by set_solver.
    destruct (Hdo _ _ _ Hl Ha Hn') as (l' & Hl' & Hin).
    rewrite lookup_insert_ne by done. eauto.
  - intros d' l Hl a. rewrite tracked_snoc. cbn [tracked_step]. by apply Hfd.
Qed.

Lemma inv_Observable_init v s : inv s → inv (Observable_init v s).2.
Proof.
  intros [[[Fo Fd Fk Fmo Fmd Ftr] Hcur Hsrc Hod Hdo] Hfd].
  split; [constructor; [constructor |..] | unfold fresh_deps];
    unfold Observable_init, new_id; cbn [snd]; sproj; try done.
  - intros i [->|?]%is_Some_insert_inv; [lia |]. by apply Nat.lt_lt_succ_r, Fo.
  - intros i ?. by apply Nat.lt_lt_succ_r, Fd.
  - intros i [->|?]%is_Some_insert_inv; [lia |]. by apply Nat.lt_lt_succ_r, Fk.
  - intros i l x Hl Hx. ins Hl; [set_solver |]. apply Nat.lt_lt_succ_r. eauto.
  - intros i l x Hl Hx. apply Nat.lt_lt_succ_r. eauto.
  - intros d a H. apply Nat.lt_lt_succ_r. eauto.
  - intros b l a Hl Ha. apply is_Some_insert. eauto.
  - intros a l b Hl Hb. ins Hl; [set_solver | eauto].
  - intros b l a Hl Ha Hn. destruct (Hdo _ _ _ Hl Ha Hn) as (l' & Hl' & Hin).
    rewrite lookup_insert_ne; [eauto |]. specialize (Fmd _ _ _ Hl Ha). lia.
Qed.

Lemma inv_Computed_init fn s : inv s → inv (Computed_init fn s).2.
Proof.
  intros [[[Fo Fd Fk Fmo Fmd Ftr] Hcur Hsrc Hod Hdo] Hfd].
  split; [constructor; [constructor |..] | unfold fresh_deps];
    unfold Computed_init, new_id; cbn [snd]; sproj; try done.
  - intros i [->|?]%is_Some_insert_inv; [lia |]. by apply Nat.lt_lt_succ_r, Fo.
  - intros i [->|?]%is_Some_insert_inv; [lia |]. by apply Nat.lt_lt_succ_r, Fd.
  - intros i [->|?]%is_Some_insert_inv; [lia |]. by apply Nat.lt_lt_succ_r, Fk.
  - intros i l x Hl Hx. ins Hl; [set_solver |]. apply Nat.lt_lt_succ_r. eauto.
  - intros i l x Hl Hx. ins Hl; [set_solver |]. apply Nat.lt_lt_succ_r. eauto.
  - intros d a H. apply Nat.lt_lt_succ_r. eauto.
  - intros d Hd. apply is_Some_insert. eauto.
  - intros b l a Hl Ha. ins Hl; [set_solver |]. apply is_Some_insert. eauto.
  - intros a l b Hl Hb. ins Hl; [set_solver |].
    destruct (Hod _ _ _ Hl Hb) as (l' & Hl' & Hin).
    rewrite lookup_insert_ne; [eauto |]. specialize (Fmo _ _ _ Hl Hb). lia.
  - intros b l a Hl Ha Hn. ins Hl; [set_solver |].
    destruct (Hdo _ _ _ Hl Ha Hn) as (l' & Hl' & Hin).
    rewrite lookup_insert_ne; [eauto |]. specialize (Fmd _ _ _ Hl Ha). lia.
  - intros d l Hl a. ins Hl; [| by apply Hfd].
    rewrite tracked_nil; [done |]. intros a' Ha'. specialize (Ftr _ _ Ha'). lia.
Qed.

Lemma inv_Reaction_init fn s : inv s → inv (Reaction_init fn s).2.
Proof.
  intros [[[Fo Fd Fk Fmo Fmd Ftr] Hcur Hsrc Hod Hdo] Hfd].
  split; [constructor; [constructor |..] | unfold fresh_deps];
    unfold Reaction_init, new_id; cbn [snd]; sproj; try done.
  - intros i ?. by apply Nat.lt_lt_succ_r, Fo.
  - intros i [->|?]%is_Some_insert_inv; [lia |]. by apply Nat.lt_lt_succ_r, Fd.
  - intros i [->|?]%is_Some_insert_inv; [lia |]. by apply Nat.lt_lt_succ_r, Fk.
  - intros i l x Hl Hx. apply Nat.lt_lt_succ_r. eauto.
  - intros i l x Hl Hx. ins Hl; [set_solver |]. apply Nat.lt_lt_succ_r. eauto.
  - intros d a H. apply Nat.lt_lt_succ_r. eauto.
  - intros d Hd. apply is_Some_insert. eauto.
  - intros b l a Hl Ha. ins Hl; [set_solver |]. eauto.
  - intros a l b Hl Hb.
    destruct (Hod _ _ _ Hl Hb) as (l' & Hl' & Hin).
    rewrite lookup_insert_ne; [eauto |]. specialize (Fmo _ _ _ Hl Hb). lia.
  - intros b l a Hl Ha Hn. ins Hl; [set_solver |]. eauto.
  - intros d l Hl a. ins Hl; [| by apply Hfd].
    rewrite tracked_nil; [done |]. intros a' Ha'. specialize (Ftr _ _ Ha'). lia.
Qed.

Lemma inv_DataReaction_init fn eff s : inv s → inv (DataReaction_init fn eff s).2.
Proof.
  intros [[[Fo Fd Fk Fmo Fmd Ftr] Hcur Hsrc Hod Hdo] Hfd].
  split; [constructor; [constructor |..] | unfold fresh_deps];
    unfold DataReaction_init, new_id; cbn [snd]; sproj; try done.
  - intros i ?. by apply Nat.lt_lt_succ_r, Fo.
  - intros i [->|?]%is_Some_insert_inv; [lia |]. by apply Nat.lt_lt_succ_r, Fd.
  - intros i [->|?]%is_Some_insert_inv; [lia |]. by apply Nat.lt_lt_succ_r, Fk.
  - intros i l x Hl Hx. apply Nat.lt_lt_succ_r. eauto.
  - intros i l x Hl Hx. ins Hl; [set_solver |]. apply Nat.lt_lt_succ_r. eauto.
  - intros d a H. apply Nat.lt_lt_succ_r. eauto.
  - intros d Hd. apply is_Some_insert. eauto.
  - intros b l a Hl Ha. ins Hl; [set_solver |]. eauto.
  - intros a l b Hl Hb.
    destruct (Hod _ _ _ Hl Hb) as (l' & Hl' & Hin).
    rewrite lookup_insert_ne; [eauto |]. specialize (Fmo _ _ _ Hl Hb). lia.
  - intros b l a Hl Ha Hn. ins Hl; [set_solver |]. eauto.
  - intros d l Hl a. ins Hl; [| by apply Hfd].
    rewrite tracked_nil; [done |]. intros a' Ha'. specialize (Ftr _ _ Ha'). lia.
Qed.

(** ** The invariant holds along every execution *)

Lemma inv_initial : inv initial_state.
Proof.
  split; [constructor; [constructor |..] | unfold fresh_deps];
    unfold initial_state; sproj; intros;
    repeat match goal with
           | H : is_Some (∅ !! _) |- _ => destruct H as [? H]
           | H : ∅ !! _ = Some _ |- _ => by rewrite lookup_empty in H
           | H : _ ∈ [] |- _ => by apply elem_of_nil in H
           | H : None = Some _ |- _ => discriminate H
           end.
Qed.

Lemma exec_run_inv n : (∀ p, keeps inv (exec n p)) ∧ (∀ d, keeps inv (run n d)).
Proof.
  apply exec_run_keep.
  - apply inv_fresh.
  - apply inv_frame.
  - apply inv_track.
  - apply inv_detach.
  - apply inv_enter.
  - apply inv_leave.
  - apply inv_emit.
  - apply inv_Observable_init.
  - apply inv_Computed_init.
  - apply inv_Reaction_init.
  - apply inv_DataReaction_init.
  - apply inv_clear.
Qed.

Lemma exec_inv n p s s' o :
  inv s → exec n p s = Some (s', o) → inv s' ∧ grows s s'.
Proof. apply exec_run_inv. Qed.

Lemma run_inv n d s s' o :
  inv s → run n d s = Some (s', o) → inv s' ∧ grows s s'.
Proof. apply exec_run_inv. Qed.

(** ** Symmetry of edges *)

(** C3, as the code has it. Along every execution that starts in a
    well-formed arena: an observer of a node has that node among its
    dependencies; and a dependency of a derivation has the derivation among
    its observers, except when the dependency is a Computed on which
    [dispose] has been called. *)
Theorem edge_symmetry n p s s' o :
  inv s → exec n p s = Some (s', o) →
  (∀ a obs b, observers s' !! a = Some obs → b ∈ obs →
              ∃ deps, dependencies s' !! b = Some deps ∧ a ∈ deps) ∧
  (∀ b deps a, dependencies s' !! b = Some deps → a ∈ deps →
               EvDispose a ∉ trace s' →
               ∃ obs, observers s' !! a = Some obs ∧ b ∈ obs).
Proof.
  intros Hi He. destruct (exec_inv _ _ _ _ _ Hi He) as [[[] _] _]. by split.
Qed.

Lemma edge_symmetry_witness :
  let s := state_after 30 dispose_reaction_prog in
  observers s !! 2%nat = Some [] ∧ dependencies s !! 3%nat = Some [] ∧
  observers s !! 1%nat = Some [2%nat] ∧ dependencies s !! 2%nat = Some [1%nat] ∧
  (∀ a obs b, observers s !! a = Some obs → b ∈ obs →
              ∃ deps, dependencies s !! b = Some deps ∧ a ∈ deps) ∧
  (∀ b deps a, dependencies s !! b = Some deps → a ∈ deps →
               EvDispose a ∉ trace s →
               ∃ obs, observers s !! a = Some obs ∧ b ∈ obs).
Proof.
  intros s. split_and!; [vm_compute; reflexivity.. | |];
    destruct (exec 30 dispose_reaction_prog initial_state) as [[s0 o0]|] eqn:E;
    try (vm_compute in E; discriminate);
    destruct (edge_symmetry 30 dispose_reaction_prog initial_state s0 o0
                inv_initial E) as [H1 H2];
    assert (s = s0) as -> by (unfold s, state_after; by rewrite E);
    assumption.
Defined.

(** C3 fails as stated: after [dispose] on a Computed that a reaction has
    read, the reaction (id 3) still has the Computed (id 2) among its
    dependencies, and the Computed has no observers. *)
Lemma edge_symmetry_counterexample :
  let s := state_after 30 dispose_computed_prog in
  dependencies s !! 3%nat = Some [2%nat] ∧ observers s !! 2%nat = Some [].
Proof. vm_compute. split; reflexivity. Qed.

(** ** Freshness of dependencies *)


Lemma call_tracked_trace n d s s' v :
  inv s → is_Some (dependencies s !! d) →
  call_tracked (exec n) d s = Some (s', Ok v) →
  ∃ t, trace s' = trace s ++ EvCall d :: t.
Proof.
  intros Hi Hd. unfold call_tracked, finally_reset. sproj.
  destruct (derivation_fns s !! d) as [fn|]; [| done].
  destruct (exec n fn _) as [[s3 o3]|] eqn:E; [| done].
  intros [= <- ->]. sproj.
  apply exec_inv in E as [_ Hg].
  2: { apply inv_emit; [done |]. by apply inv_enter. }
  destruct (grows_trace _ _ Hg) as [t Ht]. sproj.
  exists t. rewrite Ht. by rewrite <- app_assoc.
Qed.

Lemma detach_true_dom self s s1 :
  detach self s = (s1, true) → is_Some (dependencies s !! self).
Proof. unfold detach. destruct (dependencies s !! self); [by eexists | done]. Qed.

Lemma detach_trace self s s1 :
  inv s → detach self s = (s1, true) → trace s1 = trace s ++ [EvDetach self].
Proof.
  intros Hi Hd. destruct (detach_spec _ _ _ _ (proj1 Hi) Hd)
    as [[Hn ->]|(deps & m & _ & -> & _)]; [| done].
  unfold detach in Hd. by rewrite Hn in Hd.
Qed.

(** The shape of a completed run of a reaction: cleanup, the call of the
    wrapped function, then whatever the function (and, for a value-gated
    reaction, the effect) did. *)
Lemma reaction_run_trace n r s s' v :
  inv s →
  kinds s !! r = Some KReaction ∨ kinds s !! r = Some KDataReaction →
  disposed s !! r = Some false →
  run (S n) r s = Some (s', Ok v) →
  is_Some (dependencies s !! r) ∧
  ∃ t, trace s' = trace s ++ EvDetach r :: EvCall r :: t.
Proof.
  intros Hi Hk Hdis. rewrite run_S. unfold run_body.
  destruct Hk as [Hk|Hk]; rewrite Hk.
  - unfold Reaction_run. rewrite Hdis.
    destruct (detach r s) as [s1 [|]] eqn:E; [| done].
    pose proof (inv_detach _ _ _ _ Hi E) as Hi1.
    pose proof (detach_true _ _ _ E) as Hd1.
    destruct (call_tracked (exec n) r s1) as [[s2 [w|]]|] eqn:C; cbn; [| done..].
    intros [= <- _].
    destruct (call_tracked_trace n r s1 s2 w) as [t Ht];
      [done | by rewrite Hd1 | done |].
    split; [by eapply detach_true_dom |].
    exists t. rewrite Ht, (detach_trace _ _ _ Hi E). by rewrite <- app_assoc.
  - unfold DataReaction_run. rewrite Hdis.
    destruct (detach r s) as [s1 [|]] eqn:E; [| done].
    pose proof (inv_detach _ _ _ _ Hi E) as Hi1.
    pose proof (detach_true _ _ _ E) as Hd1.
    destruct (call_tracked (exec n) r s1) as [[s2 [w|]]|] eqn:C; cbn; [| done..].
    intros G.
    destruct (call_tracked_trace n r s1 s2 w) as [t Ht];
      [done | by rewrite Hd1 | done |].
    assert (inv s2) as Hi2.
    { eapply (keeps_call_tracked inv inv_enter inv_leave inv_emit (exec n)
                (proj1 (exec_run_inv n)) r s1 s2 (Ok w)); [done | | done].
      by rewrite Hd1. }
    destruct (keeps_DataReaction_gate inv inv_frame inv_emit (exec n)
                (proj1 (exec_run_inv n)) r w _ _ _ Hi2 G) as [_ Hg].
    destruct (grows_trace _ _ Hg) as [t2 Ht2].
    split; [by eapply detach_true_dom |].
    exists (t ++ t2). rewrite Ht2, Ht, (detach_trace _ _ _ Hi E).
    rewrite <- !app_assoc. reflexivity.
Qed.




Lemma recompute_trace n c s s' v :
  inv s →
  Computed_recompute (exec n) c s = Some (s', Ok v) →
  is_Some (dependencies s !! c) ∧
  ∃ t, trace s' = trace s ++ EvDetach c :: EvCall c :: t.
Proof.
  intros Hi. unfold Computed_recompute.
  destruct (detach c s) as [s1 [|]] eqn:E; [| done].
  pose proof (inv_detach _ _ _ _ Hi E) as Hi1.
  pose proof (detach_true _ _ _ E) as Hd1.
  unfold finally_reset. sproj.
  destruct (derivation_fns s1 !! c) as [fn|]; [| done].
  destruct (exec n fn _) as [[s3 [w|]]|] eqn:X; cbn; [| done..].
  intros [= <- _]. sproj.
  apply exec_inv in X as [_ Hg].
  2: { apply inv_emit; [done |]. apply inv_enter; [done |]. by rewrite Hd1. }
  destruct (grows_trace _ _ Hg) as [t Ht]. sproj.
  split; [by eapply detach_true_dom |].
  exists t. rewrite Ht, (detach_trace _ _ _ Hi E). rewrite <- !app_assoc. reflexivity.
Qed.


Lemma state_after_inv n p : inv (state_after n p).
Proof.
  unfold state_after.
  destruct (exec n p initial_state) as [[s o]|] eqn:E; [| apply inv_initial].
  by destruct (exec_inv _ _ _ _ _ inv_initial E).
Qed.




(** ** Laziness *)



Lemma track_true_ok self s s' :
  track_read self s = (s', true) →
  ∃ t0, trace s' = trace s ++ t0 ∧ calls t0 = [] ∧
        dirty_flags s' = dirty_flags s ∧ cached_values s' = cached_values s.
Proof.
  rewrite track_read_unfold. destruct (current_derivation s) as [d|].
  2: { intros [= <-]. exists []. by rewrite app_nil_r. }
  destruct (observers s !! self) as [obs|]; [| done]. sproj.
  destruct (dependencies s !! d) as [deps|]; [| done].
  intros [= <-]. by exists [EvRead d self].
Qed.








(** ** Value-gated reactions *)

Lemma py_is_vInt a b : py_is (vInt a) (vInt b) = (a =? b).
Proof.
  unfold py_is, vInt. cbn [ident].
  destruct (Z.eqb_spec a b) as [->|Hne]; [apply Nat.eqb_refl |].
  apply Nat.eqb_neq. intros H.
  destruct (Z.ltb_spec a 0), (Z.ltb_spec b 0); lia.
Qed.

Lemma py_ne_vInt a b : py_ne (vInt a) (vInt b) = negb (a =? b).
Proof. reflexivity. Qed.

Lemma effects_app t1 t2 : effects (t1 ++ t2) = effects t1 ++ effects t2.
Proof. unfold effects. apply omap_app. Qed.

Lemma gated_step o r f z s n z' :
  gated_graph o r f z s →
  ∃ s', do_cmd (exec (3 + n)) (run (3 + n)) (3 + n) (Set_ o (vInt z')) s = ok s' vNone ∧
        gated_graph o r f z' s' ∧
        effects (trace s') =
        effects (trace s) ++ (if f z' =? f z then [] else [(r, vInt (f z'))]).
Proof.
  intros [Hko Hkr Hv Ho Hd Hdis Hfn Heff Hinit Hlast Hdepth Hcur].
  assert (o ≠ r) as Hne by (intros ->; congruence).
  cbn [do_cmd]. rewrite (is_kind_true _ _ _ Hko). unfold _set_direct. rewrite Hv.
  rewrite py_is_vInt, py_ne_vInt.
  destruct (Z.eqb_spec z z') as [<-|Hz].
  { cbn. exists s. rewrite Z.eqb_refl, app_nil_r. by split_and!. }
  cbn [negb andb]. unfold _notify. sproj. rewrite Ho. cbn [foreach].
  unfold schedule at 1. sproj. rewrite Hdepth. cbn [Z.ltb Z.compare].
  change (3 + n)%nat with (S (2 + n)). rewrite run_S. unfold run_body. sproj.
  rewrite Hkr. unfold DataReaction_run. sproj. rewrite Hdis.
  unfold detach. sproj. rewrite Hd. cbn [remove_observer_all]. sproj. rewrite Ho.
  sproj. unfold call_tracked. sproj. rewrite Hfn. unfold finally_reset.
  change (2 + n)%nat with (S (1 + n)). unfold gated_data. rewrite exec_S.
  cbn [do_cmd]. unfold is_kind. sproj. rewrite Hko.
  rewrite bool_decide_eq_true_2 by done.
  rewrite Observable_get_eq, track_read_unfold. sproj.
  rewrite !lookup_insert_eq. sproj. rewrite lookup_insert_eq.
  cbn [and_then ok]. change (1 + n)%nat with (S n). rewrite exec_S.
  cbn [and_then ok]. sproj. rewrite Hcur.
  unfold DataReaction_gate. sproj. rewrite Hinit, Hlast. cbn [negb orb].
  cbn [int_of data vInt]. rewrite py_ne_vInt.
  assert (set_discard r [r] = []) as -> by (unfold set_discard; by rewrite filter_cons, decide_False, filter_nil by auto).
  assert (set_add r [] = [r]) as -> by done.
  assert (set_add o [] = [o]) as -> by done.
  destruct (Z.eqb_spec (f z') (f z)) as [Hf|Hf]; cbn [negb].
  - eexists. split; [reflexivity |]. split.
    + constructor; sproj; rewrite ?lookup_insert_eq, ?Hf; try done.
    + sproj. rewrite !effects_app. cbn. by rewrite !app_nil_r.
  - rewrite Heff. unfold gated_effect. rewrite exec_S. cbn [do_cmd and_then ok].
    rewrite exec_S. cbn [and_then ok].
    eexists. split; [reflexivity |]. split.
    + constructor; sproj; rewrite ?lookup_insert_eq; try done.
    + sproj. rewrite !effects_app. cbn. by rewrite !app_nil_r.
Qed.

Lemma gated_init o f z fire s n :
  cell_ready o z s →
  ∃ s', reaction (exec (3 + n)) (gated_data o f) gated_effect fire s
        = ok s' (vRef (id_counter s)) ∧
        gated_graph o (id_counter s) f z s' ∧
        effects (trace s') =
        effects (trace s) ++ (if fire then [(id_counter s, vInt (f z))] else []).
Proof.
  intros [Hk Hv Ho Hfr Hdepth Hcur].
  set (r := id_counter s).
  assert (o ≠ r) as Hne by (unfold r; lia).
  assert (r ≠ o) as Hne' by done.
  unfold reaction, DataReaction_init, new_id. fold r.
  change (3 + n)%nat with (S (S (S n))).
  destruct fire.
  - unfold DataReaction_run. sproj. rewrite lookup_insert_eq.
    unfold detach. sproj. rewrite lookup_insert_eq. cbn [remove_observer_all].
    unfold call_tracked. sproj. rewrite lookup_insert_eq. unfold finally_reset.
    unfold gated_data. rewrite exec_S.
    cbn [do_cmd]. unfold is_kind. sproj. rewrite lookup_insert_ne by done. rewrite Hk.
    rewrite bool_decide_eq_true_2 by done.
    rewrite Observable_get_eq, track_read_unfold. sproj. rewrite Ho. sproj.
    rewrite !lookup_insert_eq. sproj. rewrite Hv.
    cbn [and_then ok]. rewrite exec_S. cbn [and_then ok]. sproj. rewrite Hcur.
    unfold DataReaction_gate. sproj. rewrite !lookup_insert_eq. cbn [negb orb].
    unfold gated_effect. rewrite exec_S. cbn [do_cmd and_then ok].
    rewrite exec_S. cbn [and_then ok].
    assert (set_add r [] = [r]) as -> by done.
    assert (set_add o [] = [o]) as -> by done.
    eexists. split; [reflexivity |]. split.
    + constructor; sproj; rewrite ?lookup_insert_eq, ?lookup_insert_ne by done; try done.
    + sproj. rewrite !effects_app. cbn. by rewrite !app_nil_r.
  - sproj. unfold finally_reset. unfold gated_data. rewrite exec_S.
    cbn [do_cmd]. unfold is_kind. sproj. rewrite lookup_insert_ne by done. rewrite Hk.
    rewrite bool_decide_eq_true_2 by done.
    rewrite Observable_get_eq, track_read_unfold. sproj. rewrite Ho. sproj.
    rewrite !lookup_insert_eq. sproj. rewrite Hv.
    cbn [and_then ok]. rewrite exec_S. cbn [and_then ok]. sproj. rewrite Hcur.
    assert (set_add r [] = [r]) as -> by done.
    assert (set_add o [] = [o]) as -> by done.
    eexists. split; [reflexivity |]. split.
    + constructor; sproj; rewrite ?lookup_insert_eq, ?lookup_insert_ne by done; try done.
    + sproj. rewrite !effects_app. cbn. by rewrite !app_nil_r.
Qed.

Lemma gated_steps o r f zs z s n :
  gated_graph o r f z s →
  ∃ s', set_all (3 + n) o zs s = ok s' vNone ∧
        effects (trace s') =
        effects (trace s) ++ map (λ y, (r, vInt y)) (changes (f z) (map f zs)).
Proof.
  revert z s. induction zs as [|z' zs IH]; intros z s Hg.
  - exists s. cbn. by rewrite app_nil_r.
  - destruct (gated_step o r f z s n z' Hg) as (s1 & H1 & Hg1 & He1).
    destruct (IH z' s1 Hg1) as (s2 & H2 & He2).
    exists s2. cbn [set_all]. rewrite H1. cbn [and_then ok]. split; [done |].
    rewrite He2, He1. cbn [map changes].
    destruct (f z' =? f z) eqn:E.
    + apply Z.eqb_eq in E. rewrite E. by rewrite app_nil_r.
    + cbn [map]. by rewrite <- app_assoc.
Qed.

(** C8. On a trigger of a value-gated reaction, once the data function has
    returned [new]: when the reaction is initialized and [new] is equal to
    the last value, nothing more happens; otherwise the value is recorded
    and the effect function is invoked on it. Hence, for a reaction whose
    data function applies [f] to a cell, constructed on a cell holding [z0]
    and followed by writes of [zs]: the effect is invoked at construction
    only with [fire_immediately], and then once for each output that
    differs from the one before it, with that output. *)
Theorem value_gated_suppression o f z0 zs fire s n :
  cell_ready o z0 s →
  (∀ m r new s0 init last,
     initialized s0 !! r = Some init → last_value s0 !! r = Some last →
     negb init || py_ne new last = false →
     DataReaction_gate (exec m) r new s0 = ok s0 vNone) ∧
  (∀ m r new s0 init last eff,
     initialized s0 !! r = Some init → last_value s0 !! r = Some last →
     effect_fns s0 !! r = Some eff →
     negb init || py_ne new last = true →
     DataReaction_gate (exec m) r new s0 =
     and_then
       (exec m (eff new)
          (emit (EvEffect r new)
             (with_initialized (<[r := true]> (initialized s0))
                (with_last_value (<[r := new]> (last_value s0)) s0))))
       (λ _ s2, ok s2 vNone)) ∧
  ∃ s1 s2,
    reaction (exec (3 + n)) (gated_data o f) gated_effect fire s
      = ok s1 (vRef (id_counter s)) ∧
    set_all (3 + n) o zs s1 = ok s2 vNone ∧
    effects (trace s2) =
    effects (trace s) ++
    map (λ y, (id_counter s, vInt y))
        ((if fire then [f z0] else []) ++ changes (f z0) (map f zs)).
Proof.
  intros Hc. split_and!.
  - intros m r new s0 init last Hi Hl Hg. unfold DataReaction_gate.
    by rewrite Hi, Hl, Hg.
  - intros m r new s0 init last eff Hi Hl He Hg. unfold DataReaction_gate.
    rewrite Hi, Hl, Hg. sproj. by rewrite He.
  - destruct (gated_init o f z0 fire s n Hc) as (s1 & H1 & Hg & He1).
    destruct (gated_steps o _ f zs z0 s1 n Hg) as (s2 & H2 & He2).
    exists s1, s2. split_and!; [done | done |].
    rewrite He2, He1, map_app, <- app_assoc. by destruct fire.
Qed.

Lemma value_gated_suppression_witness :
  let s := state_after 9 one_cell_prog in
  ∃ s1 s2,
    reaction (exec 5) (gated_data 1 (λ z, z mod 2)) gated_effect false s
      = ok s1 (vRef 2) ∧
    set_all 5 1 [3; 4; 6; 6; 7] s1 = ok s2 vNone ∧
    data <$> (snd <$> effects (trace s2)) = [PInt 0; PInt 1].
Proof.
  intros s.
  destruct (value_gated_suppression 1 (λ z, z mod 2) 1 [3; 4; 6; 6; 7] false s 2)
    as (_ & _ & s1 & s2 & H1 & H2 & H3).
  - constructor; vm_compute; done.
  - exists s1, s2. split_and!; [exact H1 | exact H2 |].
    rewrite H3. vm_compute. reflexivity.
Defined.

(** ** The flush *)

(** Leaving the outermost scope with something pending: the depth is set
    to zero, the snapshot is taken and the pending set cleared, each member
    of the snapshot is run, and the loop goes on with what those runs left
    pending. *)
Lemma end_batch_outermost rn n s :
  batch_depth s = 1 → pending s ≠ [] →
  end_batch rn (S n) s =
    and_then (foreach rn (pending s) (with_pending [] (with_batch_depth 0 s)))
             (λ _ s', _flush_pending rn n s').
Proof.
  intros Hd Hp. unfold end_batch. sproj. rewrite Hd. cbn [Z.sub Z.add Z.opp Z.pos_sub Z.eqb].
  rewrite flush_S. sproj. by destruct (pending s).
Qed.


(** C9, as the code has it. A trigger that repeats an earlier one does
    nothing more: [_run] on a Computed that is already dirty returns with
    the state untouched, and scheduling a derivation inside a batch a second
    time leaves the pending set as the first scheduling made it, with the
    derivation in it once. When the outermost scope exits, the flush calls
    [_run] once for each member of that duplicate-free snapshot, with the
    depth back at zero; what those runs trigger is run on top of that. *)
Theorem trigger_idempotence :
  (∀ n c s,
     kinds s !! c = Some KComputed → dirty_flags s !! c = Some true →
     run (S n) c s = ok s vNone) ∧
  (∀ rn d s,
     0 < batch_depth s → NoDup (pending s) →
     let s1 := with_pending (set_add d (pending s)) s in
     schedule rn d s = ok s1 vNone ∧ schedule rn d s1 = ok s1 vNone ∧
     NoDup (pending s1) ∧ d ∈ pending s1) ∧
  (∀ rn n d s,
     batch_depth s = 1 → NoDup (pending s) →
     let s1 := with_pending (set_add d (pending s)) s in
     NoDup (set_add d (pending s)) ∧
     end_batch rn (S n) s1 =
       and_then (foreach rn (set_add d (pending s))
                   (with_pending [] (with_batch_depth 0 s)))
                (λ _ s', _flush_pending rn n s')).
Proof.
  split_and!.
  - intros n c s Hk Hd. rewrite run_S. unfold run_body, Computed_run.
    by rewrite Hk, Hd.
  - intros rn d s Hb Hnd s1. unfold schedule.
    assert ((0 <? batch_depth s) = true) as Hlt by by apply Z.ltb_lt.
    subst s1. cbn. rewrite Hlt. split_and!; [done | | |].
    + by rewrite set_add_idem.
    + by apply set_add_NoDup.
    + apply set_add_elem.
  - intros rn n d s Hb Hnd s1. split; [by apply set_add_NoDup |].
    subst s1. rewrite end_batch_outermost; [done | done |].
    sproj. intros E. pose proof (set_add_elem d (pending s)) as H.
    rewrite E in H. by apply elem_of_nil in H.
Qed.

Lemma trigger_idempotence_witness :
  let s := state_after 60 diamond_open_prog in
  let s1 := with_pending (set_add 3%nat (pending s)) s in
  batch_depth s = 1 ∧ pending s = [3; 2]%nat ∧
  run 4 2 (with_pending [] (with_batch_depth 0 s)) ≠
    ok (with_pending [] (with_batch_depth 0 s)) vNone ∧
  run 4 2 (with_dirty_flags (<[2%nat := true]> (dirty_flags s)) s) =
    ok (with_dirty_flags (<[2%nat := true]> (dirty_flags s)) s) vNone ∧
  (schedule (run 4) 3 s = ok s1 vNone ∧ schedule (run 4) 3 s1 = ok s1 vNone ∧
   NoDup (pending s1) ∧ 3%nat ∈ pending s1) ∧
  (NoDup (set_add 3%nat (pending s)) ∧
   end_batch (run 20) 21 s1 =
     and_then (foreach (run 20) (set_add 3%nat (pending s))
                 (with_pending [] (with_batch_depth 0 s)))
              (λ _ s', _flush_pending (run 20) 20 s')).
Proof.
  intros s s1. destruct trigger_idempotence as (H1 & H2 & H3).
  assert (NoDup (pending s)) as Hnd.
  { apply (bool_decide_unpack _). vm_compute. exact I. }
  split; [vm_compute; reflexivity |].
  split; [vm_compute; reflexivity |].
  split; [vm_compute; discriminate |].
  split; [apply (H1 3%nat 2%nat); vm_compute; reflexivity |].
  split.
  - apply (H2 (run 4) 3%nat s); [vm_compute; reflexivity | exact Hnd].
  - apply (H3 (run 20) 20%nat 3%nat s); [vm_compute; reflexivity | exact Hnd].
Defined.

(** C9 fails as stated: in [diamond_prog] the write inside the batch
    triggers the reaction once and the Computed once (the pending count is
    2). The flush runs the reaction, which reads the Computed before its
    [_run] has marked it dirty, and then runs the Computed's [_run], which
    triggers the reaction again at depth zero: the reaction, once in the
    pending set, is called twice by the one flush. *)
Lemma trigger_idempotence_counterexample :
  let s := state_after 60 diamond_prog in
  map data <$> logged (trace s) =
    [[PInt 1; PInt 10]; [PInt 100; PInt 2]; [PInt 2; PInt 10]; [PInt 2; PInt 20]] ∧
  calls (trace s) = [3; 2; 3; 3; 2]%nat.
Proof. vm_compute. split; reflexivity. Qed.





(** ** Further properties of the engine *)

Lemma state_eta_pending s : with_pending (pending s) s = s.
Proof. by destruct s. Qed.

(** X1. Arena entries are never deleted, a handle keeps its class, ids are
    not reused and every id in use is below the counter, along every
    execution from a well-formed arena. *)
Theorem arena_only_grows n p s s' o :
  inv s → exec n p s = Some (s', o) →
  (∀ i, is_Some (observers s !! i) → is_Some (observers s' !! i)) ∧
  (∀ i, is_Some (dependencies s !! i) → is_Some (dependencies s' !! i)) ∧
  (∀ i k, kinds s !! i = Some k → kinds s' !! i = Some k) ∧
  (id_counter s ≤ id_counter s')%nat ∧
  (∀ i, is_Some (kinds s' !! i) → (i < id_counter s')%nat) ∧
  trace s `prefix_of` trace s'.
Proof.
  intros Hi He. destruct (exec_inv _ _ _ _ _ Hi He) as [[[[] _ _ _ _] _] []].
  by split_and!.
Qed.

Lemma arena_only_grows_witness :
  let s' := state_after 60 batch_prog in
  (id_counter initial_state ≤ id_counter s')%nat ∧
  (∀ i, is_Some (kinds s' !! i) → (i < id_counter s')%nat) ∧
  trace initial_state `prefix_of` trace s'.
Proof.
  intros s'.
  destruct (exec 60 batch_prog initial_state) as [[s0 o0]|] eqn:E;
    [| vm_compute in E; discriminate].
  destruct (arena_only_grows 60 batch_prog initial_state s0 o0 inv_initial E)
    as (_ & _ & _ & H1 & H2 & H3).
  assert (s' = s0) as -> by (unfold s', state_after; by rewrite E).
  by split_and!.
Defined.

Lemma detach_frame self s s' b :
  detach self s = (s', b) →
  disposed s' = disposed s ∧ kinds s' = kinds s ∧ dirty_flags s' = dirty_flags s ∧
  cached_values s' = cached_values s ∧ values s' = values s ∧
  batch_depth s' = batch_depth s ∧ pending s' = pending s ∧
  current_derivation s' = current_derivation s.
Proof.
  assert (∀ deps s s' b, remove_observer_all self deps s = (s', b) →
            disposed s' = disposed s ∧ kinds s' = kinds s ∧
            dirty_flags s' = dirty_flags s ∧ cached_values s' = cached_values s ∧
            values s' = values s ∧ batch_depth s' = batch_depth s ∧
            pending s' = pending s ∧
            current_derivation s' = current_derivation s ∧
            dependencies s' = dependencies s ∧ trace s' = trace s) as Hr.
  { intros deps. induction deps as [|d deps IH]; intros s0 s1 b0; cbn.
    - intros [= <- _]. by split_and!.
    - destruct (observers s0 !! d); [| intros [= <- _]; by split_and!].
      intros H. by apply IH in H. }
  unfold detach. destruct (dependencies s !! self) as [deps|].
  2: { intros [= <- _]. by split_and!. }
  destruct (remove_observer_all self deps s) as [s1 [|]] eqn:E;
    intros [= <- _]; apply Hr in E; sproj; naive_solver.
Qed.

(** X2. Disposal silence: after [dispose] a reaction is marked disposed, has
    no dependencies and is in no node's observers, so no write notifies
    it; and its [_run] returns at once, leaving the state untouched. *)
Theorem reaction_dispose_silences n r s s1 v :
  inv s →
  kinds s !! r = Some KReaction ∨ kinds s !! r = Some KDataReaction →
  Reaction_dispose r s = Some (s1, Ok v) →
  disposed s1 !! r = Some true ∧ dependencies s1 !! r = Some [] ∧
  (∀ a obs, observers s1 !! a = Some obs → r ∉ obs) ∧
  run (S n) r s1 = ok s1 vNone.
Proof.
  intros Hi Hk. unfold Reaction_dispose.
  set (s0 := with_disposed _ s).
  destruct (detach r s0) as [s2 [|]] eqn:E; [| done].
  intros [= <- _].
  assert (inv s0) as Hi0 by (by apply inv_frame with s).
  pose proof (inv_detach _ _ _ _ Hi0 E) as [[_ _ _ Hod _] _].
  pose proof (detach_true _ _ _ E) as Hd.
  destruct (detach_frame _ _ _ _ E) as (Hdis & Hkk & _).
  assert (disposed s2 !! r = Some true) as Hdt.
  { rewrite Hdis. subst s0. sproj. apply lookup_insert_eq. }
  split_and!; [done | done | |].
  - intros a obs Ho Hin. destruct (Hod _ _ _ Ho Hin) as (l & Hl & Ha).
    rewrite Hd in Hl. injection Hl as <-. by apply elem_of_nil in Ha.
  - rewrite run_S. unfold run_body. rewrite Hkk. subst s0. sproj.
    destruct Hk as [-> | ->]; unfold Reaction_run, DataReaction_run; by rewrite Hdt.
Qed.

Lemma reaction_dispose_silences_witness :
  let s := state_after 20 dedup_prog in
  let s1 := res_state (Reaction_dispose 2 s) in
  observers s !! 1%nat = Some [2%nat] ∧
  disposed s1 !! 2%nat = Some true ∧ dependencies s1 !! 2%nat = Some [] ∧
  (∀ a obs, observers s1 !! a = Some obs → 2%nat ∉ obs) ∧
  run 5 2 s1 = ok s1 vNone.
Proof.
  intros s s1. split; [vm_compute; reflexivity |].
  apply (reaction_dispose_silences 4 2%nat s s1 vNone).
  - apply state_after_inv.
  - left. vm_compute. reflexivity.
  - vm_compute. reflexivity.
Defined.

Lemma get_dirty_trace n c s s1 v :
  inv s → dirty_flags s !! c = Some true →
  Computed_get (exec n) c s = Some (s1, Ok v) →
  ∃ t0 t, trace s1 = trace s ++ t0 ++ EvDetach c :: EvCall c :: t ∧ calls t0 = [].
Proof.
  intros Hi Hd Hg. rewrite Computed_get_eq in Hg.
  destruct (track_read c s) as [s0 [|]] eqn:T; [| done].
  destruct (track_true_ok _ _ _ T) as (t0 & Ht0 & Hc0 & Hdf & _).
  rewrite Hdf, Hd in Hg.
  destruct (Computed_recompute (exec n) c s0) as [[s2 [w|]]|] eqn:R;
    cbn in Hg; [| done..].
  destruct (cached_values s2 !! c); [| done]. injection Hg as <- _.
  destruct (recompute_trace n c s0 s2 w) as [_ [t Ht]];
    [by eapply inv_track | done |].
  exists t0, t. split; [| done]. rewrite Ht, Ht0. by rewrite <- app_assoc.
Qed.

(** X3. [Computed.dispose] leaves the Computed dirty with the cache unset, no
    dependencies and no observers, and takes it out of the observers of
    every node; a later [get] that completes evaluates the wrapped function
    again. *)
Theorem computed_dispose_resets c s s1 v :
  inv s →
  Computed_dispose c s = Some (s1, Ok v) →
  dirty_flags s1 !! c = Some true ∧ cached_values s1 !! c = Some vUnset ∧
  dependencies s1 !! c = Some [] ∧ observers s1 !! c = Some [] ∧
  (∀ a obs, observers s1 !! a = Some obs → c ∉ obs) ∧
  (∀ n s2 w, Computed_get (exec n) c s1 = Some (s2, Ok w) →
             ∃ t0 t, trace s2 = trace s1 ++ t0 ++ EvDetach c :: EvCall c :: t ∧
                     calls t0 = []).
Proof.
  intros Hi Hc.
  assert (inv s1) as Hi1.
  { eapply (keeps_Computed_dispose inv inv_frame inv_detach inv_clear); done. }
  unfold Computed_dispose in Hc.
  destruct (detach c s) as [s0 [|]] eqn:E; [| done].
  pose proof (detach_true _ _ _ E) as Hd.
  destruct (observers s0 !! c) as [obs0|] eqn:Ho; [| done].
  injection Hc as <- _. sproj.
  split_and!; try apply lookup_insert_eq; try done.
  - intros a obs Hoa Hin. destruct Hi1 as [[_ _ _ Hod _] _].
    destruct (Hod _ _ _ Hoa Hin) as (l & Hl & Ha). sproj.
    rewrite Hd in Hl. injection Hl as <-. by apply elem_of_nil in Ha.
  - intros n s2 w Hg. apply (get_dirty_trace n c _ s2 w Hi1); [| done].
    apply lookup_insert_eq.
Qed.

Lemma computed_dispose_resets_witness :
  let s := state_after 30 read_computed_prog in
  let s1 := res_state (Computed_dispose 2 s) in
  dirty_flags s !! 2%nat = Some false ∧ observers s !! 1%nat = Some [2%nat] ∧
  dirty_flags s1 !! 2%nat = Some true ∧ cached_values s1 !! 2%nat = Some vUnset ∧
  dependencies s1 !! 2%nat = Some [] ∧ observers s1 !! 2%nat = Some [] ∧
  (∀ a obs, observers s1 !! a = Some obs → 2%nat ∉ obs) ∧
  (∀ n s2 w, Computed_get (exec n) 2 s1 = Some (s2, Ok w) →
             ∃ t0 t, trace s2 = trace s1 ++ t0 ++ EvDetach 2 :: EvCall 2 :: t ∧
                     calls t0 = []).
Proof.
  intros s s1. split; [vm_compute; reflexivity |].
  split; [vm_compute; reflexivity |].
  apply (computed_dispose_resets 2%nat s s1 vNone).
  - apply state_after_inv.
  - vm_compute. reflexivity.
Defined.

(** X4. Reading a cell twice in a row registers the edge once: the second
    [get] returns the same value and leaves observers, dependencies and
    values as the first one left them. Outside a derivation a [get] changes
    nothing at all. *)
Theorem read_registers_once o s s1 v :
  Observable_get o s = Some (s1, Ok v) →
  (current_derivation s = None → s1 = s) ∧
  ∃ s2, Observable_get o s1 = ok s2 v ∧
        observers s2 = observers s1 ∧ dependencies s2 = dependencies s1 ∧
        values s2 = values s1.
Proof.
  rewrite Observable_get_eq, track_read_unfold.
  destruct (current_derivation s) as [d|] eqn:Hc.
  - destruct (observers s !! o) as [obs|] eqn:Ho; [| done]. sproj.
    destruct (dependencies s !! d) as [deps|] eqn:Hd; [| done]. sproj.
    destruct (values s !! o) as [w|] eqn:Hv; [| done].
    intros [= <- <-]. split; [done |].
    rewrite Observable_get_eq, track_read_unfold. sproj. rewrite Hc.
    rewrite !lookup_insert_eq. sproj. rewrite ?lookup_insert_eq, Hv.
    eexists. split; [reflexivity |]. sproj.
    by rewrite !set_add_idem, !insert_insert_eq.
  - destruct (values s !! o) as [w|] eqn:Hv; [| done].
    intros [= <- <-]. split; [done |].
    rewrite Observable_get_eq, track_read_unfold, Hc, Hv. by eexists.
Qed.

Lemma read_registers_once_witness :
  let s := with_current (Some 2%nat) (state_after 20 dedup_prog) in
  let s1 := res_state (Observable_get 1 s) in
  ∃ s2, Observable_get 1 s1 = ok s2 (vInt 42) ∧
        observers s2 = observers s1 ∧ dependencies s2 = dependencies s1 ∧
        values s2 = values s1.
Proof.
  intros s s1.
  destruct (read_registers_once 1%nat s s1 (vInt 42)) as [_ H]; [| exact H].
  vm_compute. reflexivity.
Defined.

Lemma elem_of_add_all d l P : d ∈ add_all l P ↔ d ∈ P ∨ d ∈ l.
Proof.
  unfold add_all. revert P. induction l as [|x l IH]; intros P; cbn.
  - set_solver.
  - rewrite IH, elem_of_set_add. set_solver.
Qed.

Lemma add_all_NoDup l P : NoDup P → NoDup (add_all l P).
Proof.
  unfold add_all. revert P. induction l as [|x l IH]; intros P H; cbn; [done |].
  by apply IH, set_add_NoDup.
Qed.

Lemma foreach_schedule_pending rn l s :
  0 < batch_depth s →
  foreach (schedule rn) l s = ok (with_pending (add_all l (pending s)) s) vNone.
Proof.
  intros Hd. revert s Hd. induction l as [|x l IH]; intros s Hd; cbn.
  - by rewrite state_eta_pending.
  - unfold schedule at 1. destruct (Z.ltb_spec 0 (batch_depth s)); [| lia]. cbn.
    rewrite IH by done. reflexivity.
Qed.

(** X5. Triggering a clean Computed inside a batch marks it dirty and adds
    its observers to the pending set; nothing is invoked, neither its own
    function nor its observers'. *)
Theorem lazy_trigger_in_batch n c s obs :
  kinds s !! c = Some KComputed → dirty_flags s !! c = Some false →
  observers s !! c = Some obs → 0 < batch_depth s →
  run (S n) c s =
    ok (with_pending (add_all obs (pending s))
          (with_dirty_flags (<[c := true]> (dirty_flags s)) s)) vNone.
Proof.
  intros Hk Hd Ho Hb. rewrite run_S. unfold run_body, Computed_run.
  rewrite Hk, Hd. sproj. rewrite Ho.
  by rewrite foreach_schedule_pending.
Qed.

Lemma lazy_trigger_in_batch_witness :
  let s := state_after 30 clean_in_batch_prog in
  pending s = [] ∧ observers s !! 2%nat = Some [3%nat] ∧
  run 5 2 s =
    ok (with_pending (add_all [3%nat] (pending s))
          (with_dirty_flags (<[2%nat := true]> (dirty_flags s)) s)) vNone.
Proof.
  intros s. split_and!; [vm_compute; reflexivity.. |].
  apply (lazy_trigger_in_batch 4 2%nat s [3%nat]); vm_compute; reflexivity.
Defined.

(** X6. Inside a batch, a write that changes the value stores it and adds
    exactly the cell's observers to the pending set, each at most once. *)
Theorem write_in_batch_schedules_observers ex rn n o v old obs s :
  kinds s !! o = Some KObservable → values s !! o = Some old →
  observers s !! o = Some obs → 0 < batch_depth s →
  negb (py_is old v) && py_ne old v = true →
  do_cmd ex rn n (Set_ o v) s =
    ok (with_pending (add_all obs (pending s))
          (with_values (<[o := v]> (values s)) s)) vNone ∧
  (∀ d, d ∈ add_all obs (pending s) ↔ d ∈ pending s ∨ d ∈ obs) ∧
  (NoDup (pending s) → NoDup (add_all obs (pending s))).
Proof.
  intros Hk Hv Ho Hb Hc. split_and!.
  - cbn [do_cmd]. rewrite (is_kind_true _ _ _ Hk). unfold _set_direct.
    rewrite Hv, Hc. unfold _notify. sproj. rewrite Ho.
    by rewrite foreach_schedule_pending.
  - intros d. apply elem_of_add_all.
  - apply add_all_NoDup.
Qed.

Lemma write_in_batch_schedules_observers_witness :
  let s := state_after 30 clean_in_batch_prog in
  add_all [2%nat] (pending s) = [2%nat] ∧
  do_cmd (exec 5) (run 5) 5 (Set_ 1 (vInt 6)) s =
    ok (with_pending (add_all [2%nat] (pending s))
          (with_values (<[1%nat := vInt 6]> (values s)) s)) vNone.
Proof.
  intros s. split; [vm_compute; reflexivity |].
  destruct (write_in_batch_schedules_observers (exec 5) (run 5) 5%nat 1%nat
              (vInt 6) (vInt 5) [2%nat] s) as [H _];
    [vm_compute; reflexivity.. | exact H].
Defined.

(** X7. [autorun] mints a fresh id for the reaction, runs the wrapped function
    once before returning and returns the new handle. *)
Theorem autorun_runs_at_construction n fn s s' v :
  inv s →
  autorun (exec n) fn s = Some (s', Ok v) →
  let r := id_counter s in
  v = vRef r ∧ kinds s !! r = None ∧ kinds s' !! r = Some KReaction ∧
  (id_counter s < id_counter s')%nat ∧
  ∃ t, trace s' = trace s ++ EvDetach r :: EvCall r :: t.
Proof.
  intros Hi Ha r. unfold autorun in Ha.
  pose proof (inv_Reaction_init fn s Hi) as Hi1.
  destruct (Reaction_init fn s) as [r' s1] eqn:E.
  unfold Reaction_init, new_id in E. injection E as <- <-. fold r in Ha, Hi1.
  cbn [snd] in Hi1. set (s1 := with_kinds _ _) in *.
  assert (kinds s1 !! r = Some KReaction) as Hk by apply lookup_insert_eq.
  assert (disposed s1 !! r = Some false) as Hd by apply lookup_insert_eq.
  assert (Reaction_run (exec n) r s1 = run (S n) r s1) as Hrun.
  { rewrite run_S. unfold run_body. by rewrite Hk. }
  rewrite Hrun in Ha.
  destruct (run (S n) r s1) as [[s2 [w|]]|] eqn:R; cbn in Ha; [| done..].
  injection Ha as <- <-.
  destruct (run_inv _ _ _ _ _ Hi1 R) as [_ Hg].
  destruct (reaction_run_trace n r s1 s2 w Hi1 (or_introl Hk) Hd R) as [_ [t Ht]].
  split_and!.
  - done.
  - destruct (kinds s !! r) eqn:Hks; [| done].
    assert (r < id_counter s)%nat; [| unfold r in *; lia].
    apply (fresh_kinds s (inv_fresh s Hi)). by eexists.
  - by apply (grows_kinds _ _ Hg).
  - pose proof (grows_id_counter _ _ Hg) as H. subst s1. sproj. lia.
  - exists t. by rewrite Ht.
Qed.

Lemma autorun_runs_at_construction_witness :
  let s := state_after 9 one_cell_prog in
  let fn := (x <~ Get 1 ;; Log [x] ;;; Ret vNone) in
  let s' := res_state (autorun (exec 9) fn s) in
  id_counter s = 2%nat ∧
  let r := id_counter s in
  vRef 2 = vRef r ∧ kinds s !! r = None ∧ kinds s' !! r = Some KReaction ∧
  (id_counter s < id_counter s')%nat ∧
  ∃ t, trace s' = trace s ++ EvDetach r :: EvCall r :: t.
Proof.
  intros s fn s'. split; [vm_compute; reflexivity |].
  apply (autorun_runs_at_construction 9 fn s s' (vRef 2)).
  - apply state_after_inv.
  - vm_compute. reflexivity.
Defined.

(** X8. An observer that raises while a write notifies stops the notification:
    the exception reaches the caller of [set], the observers after it are
    not run, and the new value stays written. *)
Theorem notify_abort rn o v old s before d after s1 s' w :
  values s !! o = Some old →
  negb (py_is old v) && py_ne old v = true →
  observers s !! o = Some (before ++ d :: after) →
  foreach (schedule rn) before (with_values (<[o := v]> (values s)) s)
    = Some (s1, Ok w) →
  schedule rn d s1 = Some (s', Exn) →
  _set_direct rn o v s = Some (s', Exn).
Proof.
  intros Hv Hc Ho Hb Hd. unfold _set_direct. rewrite Hv, Hc.
  unfold _notify. sproj. rewrite Ho, foreach_app, Hb. cbn. by rewrite Hd.
Qed.

Lemma notify_abort_witness :
  let s := state_after 30 failing_observer_prog in
  let s' := res_state (schedule (run 9) 2
                         (with_values (<[1%nat := vInt 1]> (values s)) s)) in
  observers s !! 1%nat = Some [2; 3]%nat ∧
  _set_direct (run 9) 1 (vInt 1) s = Some (s', Exn) ∧
  values s' !! 1%nat = Some (vInt 1) ∧ calls (trace s') = [2; 3; 2]%nat.
Proof.
  intros s s'.
  split_and!; [vm_compute; reflexivity | | vm_compute; reflexivity..].
  apply (notify_abort (run 9) 1%nat (vInt 1) (vInt 0) s [] 2%nat [3%nat]
           (with_values (<[1%nat := vInt 1]> (values s)) s) s' vNone);
    vm_compute; reflexivity.
Defined.

(** X9. Top-level [set(v)] followed by [get()], inside a batch or on a cell
    without observers: the read returns [v], or the stored object when the
    write was suppressed because that object is [v] itself or equal to it. *)
Theorem write_then_read ex rn n o v old s :
  kinds s !! o = Some KObservable → values s !! o = Some old →
  current_derivation s = None →
  0 < batch_depth s ∧ is_Some (observers s !! o) ∨ observers s !! o = Some [] →
  ∃ s1 v',
    do_cmd ex rn n (Set_ o v) s = ok s1 vNone ∧
    do_cmd ex rn n (Get o) s1 = ok s1 v' ∧
    (v' = v ∨ v' = old ∧ (py_is old v = true ∨ py_eq old v = true)).
Proof.
  intros Hk Hv Hcur Hobs. cbn [do_cmd]. rewrite (is_kind_true _ _ _ Hk).
  unfold _set_direct. rewrite Hv.
  destruct (negb (py_is old v) && py_ne old v) eqn:Hc.
  - unfold _notify. sproj.
    destruct Hobs as [[Hb [obs Ho]]|Ho]; rewrite Ho.
    + rewrite foreach_schedule_pending by done.
      eexists _, v. split; [reflexivity |].
      unfold is_kind. sproj. rewrite Hk, bool_decide_eq_true_2 by done.
      rewrite Observable_get_eq, track_read_unfold. sproj. rewrite Hcur. sproj.
      rewrite lookup_insert_eq. auto.
    + cbn [foreach]. eexists _, v. split; [reflexivity |].
      unfold is_kind. sproj. rewrite Hk, bool_decide_eq_true_2 by done.
      rewrite Observable_get_eq, track_read_unfold. sproj. rewrite Hcur. sproj.
      rewrite lookup_insert_eq. auto.
  - exists s, old. split; [done |]. rewrite (is_kind_true _ _ _ Hk).
    rewrite Observable_get_eq, track_read_unfold. rewrite Hcur, Hv. split; [done |].
    right. split; [done |]. unfold py_ne in Hc.
    destruct (py_is old v), (py_eq old v); cbn in Hc; auto; discriminate.
Qed.

Lemma write_then_read_witness :
  let s := state_after 9 one_cell_prog in
  ∃ s1 v',
    do_cmd (exec 5) (run 5) 5 (Set_ 1 (vInt 7)) s = ok s1 vNone ∧
    do_cmd (exec 5) (run 5) 5 (Get 1) s1 = ok s1 v' ∧
    (v' = vInt 7 ∨ v' = vInt 1 ∧ (py_is (vInt 1) (vInt 7) = true ∨
                                  py_eq (vInt 1) (vInt 7) = true)).
Proof.
  intros s.
  apply (write_then_read (exec 5) (run 5) 5%nat 1%nat (vInt 7) (vInt 1) s);
    [vm_compute; reflexivity.. |].
  right. vm_compute. reflexivity.
Defined.

Lemma failing_body_in_batch w n s :
  0 < batch_depth s → body_ok w s → (body_fuel w ≤ n)%nat →
  ∃ P, exec n (body_then w Raise) s =
       exn (with_pending P (with_values (body_values w (values s)) s)).
Proof.
  revert n s. induction w as [|o v k IH|inner IHi k IHk]; intros n s Hd Hok Hn.
  - destruct n; [cbn in Hn; lia |]. exists (pending s). cbn.
    by rewrite state_eta.
  - destruct n as [|n]; [cbn in Hn; lia |]. cbn in Hn.
    destruct Hok as (Hk & [old Hv] & [obs Ho] & Hok).
    cbn [body_then]. rewrite exec_S. cbn [do_cmd].
    rewrite (is_kind_true _ _ _ Hk). unfold _set_direct. rewrite Hv.
    cbn [body_values]. rewrite Hv.
    destruct (negb (py_is old v) && py_ne old v).
    + unfold _notify. cbn [observers with_values]. rewrite Ho.
      rewrite foreach_schedule_pending by done. cbn [and_then ok].
      destruct (IH n (with_pending (add_all obs (pending (with_values (<[o:=v]> (values s)) s)))
                        (with_values (<[o:=v]> (values s)) s)))
        as [P HP]; [done | | lia |].
      { eapply body_ok_frame; [| | | exact Hok]; [done | done |].
        intros o' H. cbn. by apply is_Some_insert. }
      exists P. rewrite HP. reflexivity.
    + cbn [and_then ok].
      destruct (IH n s) as [P HP]; [done | done | lia |].
      exists P. exact HP.
  - destruct n as [|n]; [cbn in Hn; lia |]. cbn in Hn.
    destruct Hok as [Hoi Hok].
    cbn [body_then]. rewrite exec_S. cbn [do_cmd]. unfold transaction.
    destruct (body_in_batch inner n (begin_batch s)) as [P1 HP1];
      [cbn; lia | eapply body_ok_frame; [| | | exact Hoi]; done | lia |].
    rewrite HP1. cbn [ok]. unfold end_batch. cbn [batch_depth with_pending
      with_values begin_batch with_batch_depth].
    replace (batch_depth s + 1 - 1) with (batch_depth s) by lia.
    destruct (Z.eqb_spec (batch_depth s) 0); [lia |]. cbn [ok and_then].
    set (s1 := with_batch_depth _ _).
    destruct (IHk n s1) as [P HP]; [done | | lia |].
    { eapply body_ok_frame; [| | | exact Hok]; [done | done |].
      intros o. apply body_values_dom. }
    exists P. rewrite HP. subst s1. cbn. reflexivity.
Qed.

(** X10. A failure inside a [transaction] / [action] body does not undo the
    writes made before it and does not leave the batch open: the outermost
    scope still flushes, from the state in which those writes are applied,
    and the failure then reaches the caller. *)
Theorem transaction_failure_keeps_writes w n s :
  batch_depth s = 0 → body_ok w s → (body_fuel w ≤ n)%nat →
  ∃ P,
    let s_mid :=
      with_pending P (with_values (body_values w (values s)) (begin_batch s)) in
    transaction (exec n) (run n) n (body_then w Raise) s =
      match _flush_pending (run n) n (with_batch_depth 0 s_mid) with
      | Some (s2, _) => Some (s2, Exn)
      | None => None
      end.
Proof.
  intros Hd Hok Hn.
  destruct (failing_body_in_batch w n (begin_batch s)) as [P HP];
    [cbn; lia | eapply body_ok_frame; [| | | exact Hok]; done | done |].
  exists P. cbn zeta. unfold transaction. rewrite HP. unfold exn, end_batch.
  cbn [batch_depth with_pending with_values begin_batch with_batch_depth].
  rewrite Hd. cbn [Z.add Z.sub Z.opp Z.pos_sub Z.eqb].
  destruct (_flush_pending _ _ _) as [[s2 [v|]]|]; done.
Qed.

Lemma transaction_failure_keeps_writes_witness :
  let s := state_after 30 two_cells_prog in
  let r := transaction (exec 20) (run 20) 20 (body_then two_writes Raise) s in
  raised r = true ∧
  final (λ s', map data <$> logged (trace s') = [[PInt 0; PInt 0]; [PInt 1; PInt 2]] ∧
               batch_depth s' = 0) r ∧
  ∃ P,
    let s_mid :=
      with_pending P
        (with_values (body_values two_writes (values s)) (begin_batch s)) in
    r = match _flush_pending (run 20) 20 (with_batch_depth 0 s_mid) with
        | Some (s2, _) => Some (s2, Exn)
        | None => None
        end.
Proof.
  intros s r. split_and!; [vm_compute; reflexivity | vm_compute; done |].
  apply (transaction_failure_keeps_writes two_writes 20 s).
  - vm_compute. reflexivity.
  - vm_compute. repeat split; eexists; reflexivity.
  - vm_compute. lia.
Defined.

(** ** The store *)

Lemma Store_fill_spec schema initial obs s obs' s' :
  Store_fill schema initial obs s = (obs', s') →
  current_derivation s' = current_derivation s ∧
  (id_counter s ≤ id_counter s')%nat ∧
  (∀ key, key ∉ schema.*1 → obs' !! key = obs !! key) ∧
  (∀ i, (i < id_counter s)%nat → values s' !! i = values s !! i) ∧
  (NoDup schema.*1 →
   ∀ key default, (key, default) ∈ schema →
     ∃ o, obs' !! key = Some o ∧
          values s' !! o = Some (initial_value initial key default)).
Proof.
  revert obs s. induction schema as [|[k d] rest IH]; intros obs s; cbn [Store_fill].
  - intros [= <- <-]. split_and!; try done. intros _ key default H.
    by apply elem_of_nil in H.
  - unfold Observable_init, new_id. intros H.
    apply IH in H as (Hc & Hi & Hk & Hv & Hn). sproj.
    split_and!.
    + done.
    + lia.
    + intros key Hkey. cbn in Hkey. rewrite Hk by set_solver.
      rewrite lookup_insert_ne; [done | set_solver].
    + intros i Hlt. rewrite Hv by lia. sproj.
      rewrite lookup_insert_ne; [done | lia].
    + intros Hnd key default Hin. cbn in Hnd. apply NoDup_cons in Hnd as [Hnot Hnd].
      apply elem_of_cons in Hin as [[= -> ->]|Hin].
      * exists (id_counter s). rewrite Hk by done. rewrite lookup_insert_eq.
        split; [done |]. rewrite Hv by lia. sproj. apply lookup_insert_eq.
      * by apply Hn.
Qed.

(** X11. After construction, [get] of a key of the schema returns the value
    given by [initial], else the default; [get] of any other key returns
    [None] and [set] of it does nothing. *)
Theorem store_init_then_get schema initial s st s' :
  NoDup schema.*1 → current_derivation s = None →
  Store_init schema initial s = (st, s') →
  (∀ key default, (key, default) ∈ schema →
     Store_get st key s' = ok s' (initial_value initial key default)) ∧
  (∀ key, key ∉ schema.*1 →
     Store_get st key s' = ok s' vNone ∧
     ∀ rn v, Store_set rn st key v s' = ok s' vNone).
Proof.
  intros Hnd Hcur. unfold Store_init.
  destruct (Store_fill schema initial ∅ s) as [obs s1] eqn:E.
  intros [= <- <-].
  destruct (Store_fill_spec _ _ _ _ _ _ E) as (Hc & _ & Hk & _ & Hn).
  split.
  - intros key default Hin. destruct (Hn Hnd key default Hin) as (o & Ho & Hv).
    unfold Store_get. cbn. rewrite Ho. rewrite Observable_get_eq, track_read_unfold.
    by rewrite Hc, Hcur, Hv.
  - intros key Hkey. unfold Store_get, Store_set. cbn.
    by rewrite (Hk key Hkey), lookup_empty.
Qed.

Lemma Store_set_items_in_batch rn st items s :
  0 < batch_depth s → store_cells_ok st s →
  ∃ P, Store_set_items rn st items s =
       ok (with_pending P
             (with_values (body_values (items_body st items) (values s)) s)) vNone.
Proof.
  revert s. induction items as [|[key v] rest IH]; intros s Hd Hok.
  - exists (pending s). cbn. by rewrite state_eta.
  - cbn [Store_set_items items_body]. unfold Store_set.
    destruct (_observables st !! key) as [o|] eqn:Hk.
    + destruct (Hok key o Hk) as [[old Hv] [obs Ho]].
      unfold _set_direct. rewrite Hv. cbn [body_values]. rewrite Hv.
      destruct (negb (py_is old v) && py_ne old v).
      * unfold _notify. sproj. rewrite Ho.
        rewrite foreach_schedule_pending by done. cbn [and_then ok].
        destruct (IH (with_pending
                        (add_all obs (pending (with_values (<[o:=v]> (values s)) s)))
                        (with_values (<[o:=v]> (values s)) s)))
          as [P HP]; [done | |].
        { intros k' o' Hk'. sproj. destruct (Hok k' o' Hk') as [? ?].
          split; [by apply is_Some_insert | done]. }
        exists P. rewrite HP. reflexivity.
      * cbn [and_then ok]. by apply IH.
    + cbn [and_then ok]. by apply IH.
Qed.

(** X12. [Store.update] writes every item whose key the store has, skips the
    others, and runs no derivation before all the writes are done: the
    flush of the batch starts in the state that holds all of them. *)
Theorem store_update_batches rn n st items s :
  batch_depth s = 0 → store_cells_ok st s →
  ∃ P,
    let s_mid :=
      with_pending P
        (with_values (body_values (items_body st items) (values s))
           (begin_batch s)) in
    Store_set_items rn st items (begin_batch s) = ok s_mid vNone ∧
    trace s_mid = trace s ∧
    Store_update rn n st items s = _flush_pending rn n (with_batch_depth 0 s_mid).
Proof.
  intros Hd Hok.
  destruct (Store_set_items_in_batch rn st items (begin_batch s)) as [P HP];
    [cbn; lia | done |].
  exists P. cbn zeta. split_and!; [exact HP | done |].
  unfold Store_update, action. rewrite HP. cbn [ok]. unfold end_batch.
  cbn [batch_depth with_pending with_values begin_batch with_batch_depth].
  rewrite Hd. cbn [Z.add Z.sub Z.opp Z.pos_sub Z.eqb].
  destruct (_flush_pending _ _ _) as [[s2 [v|]]|] eqn:F; [| done | done].
  by rewrite (flush_ok_none _ _ _ _ _ F).
Qed.

Lemma Store_add_keys_spec schema obs s obs' s' :
  Store_add_keys schema obs s = (obs', s') →
  (∀ key o, obs !! key = Some o → obs' !! key = Some o) ∧
  (∀ i, (i < id_counter s)%nat →
        values s' !! i = values s !! i ∧ kinds s' !! i = kinds s !! i) ∧
  (id_counter s ≤ id_counter s')%nat ∧
  dependencies s' = dependencies s ∧ disposed s' = disposed s ∧
  (inv s → inv s') ∧
  (NoDup schema.*1 →
   ∀ key default, (key, default) ∈ schema → obs !! key = None →
     ∃ o, obs' !! key = Some o ∧ values s' !! o = Some default).
Proof.
  revert obs s. induction schema as [|[k d] rest IH]; intros obs s;
    cbn [Store_add_keys].
  - intros [= <- <-]. split_and!; try done. intros _ key default H.
    by apply elem_of_nil in H.
  - destruct (obs !! k) as [o0|] eqn:Hk.
    + intros H. apply IH in H as (Ha & Hv & Hi & Hd & Hdis & Hinv & Hn).
      split_and!; try done.
      intros Hnd key default Hin Hnone. cbn in Hnd.
      apply NoDup_cons in Hnd as [Hnot Hnd].
      apply elem_of_cons in Hin as [[= -> ->]|Hin]; [congruence |].
      by apply Hn.
    + pose proof (inv_Observable_init d s) as Hinit.
      unfold Observable_init, new_id in *. cbn [snd] in Hinit. intros H.
      apply IH in H as (Ha & Hv & Hi & Hd & Hdis & Hinv & Hn). sproj.
      split_and!; try done.
      * intros key o Ho. apply Ha. rewrite lookup_insert_ne; [done | congruence].
      * intros i Hlt. destruct (Hv i) as [-> ->]; [lia |]. sproj.
        rewrite !lookup_insert_ne by lia. done.
      * lia.
      * auto.
      * intros Hnd key default Hin Hnone. cbn in Hnd.
        apply NoDup_cons in Hnd as [Hnot Hnd].
        apply elem_of_cons in Hin as [[= -> ->]|Hin].
        -- exists (id_counter s). split; [apply Ha, lookup_insert_eq |].
           destruct (Hv (id_counter s)) as [-> _]; [lia |]. sproj.
           apply lookup_insert_eq.
        -- apply Hn; [done | done |].
           rewrite lookup_insert_ne; [done |].
           intros ->. apply Hnot. apply list_elem_of_fmap. by exists (key, default).
Qed.

Lemma Reaction_dispose_ok r s :
  inv s → is_Some (dependencies s !! r) →
  ∃ s1, Reaction_dispose r s = ok s1 vNone ∧ inv s1 ∧
        values s1 = values s ∧ kinds s1 = kinds s ∧
        disposed s1 = <[r := true]> (disposed s) ∧
        dependencies s1 = <[r := []]> (dependencies s).
Proof.
  intros Hi [deps Hd]. unfold Reaction_dispose.
  set (s0 := with_disposed _ s).
  assert (inv s0) as Hi0 by (by apply inv_frame with s).
  destruct (detach r s0) as [s1 b] eqn:E.
  pose proof (inv_detach _ _ _ _ Hi0 E) as Hi1.
  destruct (detach_spec _ _ _ _ (proj1 Hi0) E)
    as [[Hn _]|(deps' & m & _ & -> & _)].
  { subst s0. sproj. congruence. }
  assert (b = true) as ->.
  { unfold detach in E. subst s0. sproj. rewrite Hd in E.
    destruct (remove_observer_all_spec r deps
                (with_disposed (<[r:=true]> (disposed s)) s)) as (m' & Hm' & _).
    { intros a Ha. sproj. by eapply (gi_sources s (proj1 Hi)). }
    rewrite Hm' in E. by injection E. }
  eexists. split; [reflexivity |]. by split_and!.
Qed.

Lemma dispose_all l s :
  inv s → Forall (live_reaction s) l →
  ∃ s1, foreach dispose_handle l s = ok s1 vNone ∧ inv s1 ∧
        values s1 = values s ∧ kinds s1 = kinds s ∧
        (∀ d, disposed s1 !! d =
              if decide (d ∈ l) then Some true else disposed s !! d) ∧
        (∀ d, dependencies s1 !! d =
              if decide (d ∈ l) then Some [] else dependencies s !! d).
Proof.
  revert s. induction l as [|r l IH]; intros s Hi Hl.
  - exists s. cbn. split_and!; try done; intros d; by rewrite decide_False by set_solver.
  - apply Forall_cons in Hl as [[Hk Hd] Hl].
    destruct (Reaction_dispose_ok r s Hi Hd) as (s' & Hr & Hi' & Hv' & Hk' & Hdis' & Hdep').
    destruct (IH s' Hi') as (s1 & Hf & Hi1 & Hv1 & Hk1 & Hdis1 & Hdep1).
    { eapply Forall_impl; [exact Hl |]. intros d [Hkd Hdd]. split.
      - by rewrite Hk'.
      - rewrite Hdep'. by apply is_Some_insert. }
    exists s1. cbn [foreach]. unfold dispose_handle at 1.
    assert (Reaction_dispose r s = ok s' vNone →
            match kinds s !! r with
            | Some KComputed => Computed_dispose r s
            | Some KReaction | Some KDataReaction => Reaction_dispose r s
            | _ => exn s
            end = ok s' vNone) as Hm by (destruct Hk as [-> | ->]; done).
    rewrite (Hm Hr). cbn [and_then ok].
    split_and!; [done | done | congruence | congruence | |].
    + intros d. rewrite Hdis1, Hdis'.
      destruct (decide (d ∈ l)), (decide (d ∈ r :: l)); try set_solver.
      * destruct (decide (d = r)) as [->|]; [by rewrite lookup_insert_eq | set_solver].
      * rewrite lookup_insert_ne; [done | set_solver].
    + intros d. rewrite Hdep1, Hdep'.
      destruct (decide (d ∈ l)), (decide (d ∈ r :: l)); try set_solver.
      * destruct (decide (d = r)) as [->|]; [by rewrite lookup_insert_eq | set_solver].
      * rewrite lookup_insert_ne; [done | set_solver].
Qed.

(** X13. [Store.dispose] (and the disposal step of [reconcile]) never raises on
    reactions of the arena: it disposes each of them, takes them out of
    every node's observers, leaves the cells' values untouched and empties
    the list of disposers. *)
Theorem store_dispose_silences st s :
  inv s → Forall (live_reaction s) (_reaction_disposers st) →
  ∃ s1,
    Store_dispose st s = Some (mkStore (_observables st) [], s1, Ok vNone) ∧
    values s1 = values s ∧
    ∀ d, d ∈ _reaction_disposers st →
         disposed s1 !! d = Some true ∧
         (∀ a obs, observers s1 !! a = Some obs → d ∉ obs) ∧
         (∀ n, run (S n) d s1 = ok s1 vNone).
Proof.
  intros Hi Hl.
  destruct (dispose_all _ s Hi Hl) as (s1 & Hf & Hi1 & Hv & Hk & Hdis & Hdep).
  exists s1. unfold Store_dispose, Store_dispose_reactions. rewrite Hf.
  split_and!; [done | done |]. intros d Hd.
  assert (disposed s1 !! d = Some true) as Hdt
    by (by rewrite Hdis, decide_True).
  split_and!; [done | |].
  - intros a obs Ho Hin. destruct Hi1 as [[_ _ _ Hod _] _].
    destruct (Hod _ _ _ Ho Hin) as (l' & Hl' & Ha).
    rewrite Hdep, decide_True in Hl' by done. injection Hl' as <-.
    by apply elem_of_nil in Ha.
  - intros n. rewrite run_S. unfold run_body. rewrite Hk.
    rewrite Forall_forall in Hl. destruct (Hl d Hd) as [[-> | ->] _];
      unfold Reaction_run, DataReaction_run; by rewrite Hdt.
Qed.

(** X14. [reconcile] keeps the cell and the value of every key the store
    has, gives each new key of the schema a cell holding its default, and
    disposes the old reactions, all before [setup_fn] runs. When
    [setup_fn] raises, [Store.reconcile] lets the failure through and
    [HotReloadStore.reconcile] returns normally; both leave the store
    without disposers. *)
Theorem store_reconcile setup st schema s :
  inv s → NoDup schema.*1 →
  (∀ key o, _observables st !! key = Some o → (o < id_counter s)%nat) →
  Forall (live_reaction s) (_reaction_disposers st) →
  ∃ obs s2,
    (∀ key o, _observables st !! key = Some o →
       obs !! key = Some o ∧ values s2 !! o = values s !! o) ∧
    (∀ key default, (key, default) ∈ schema → _observables st !! key = None →
       ∃ o, obs !! key = Some o ∧ values s2 !! o = Some default) ∧
    (∀ d, d ∈ _reaction_disposers st →
       disposed s2 !! d = Some true ∧
       ∀ a l, observers s2 !! a = Some l → d ∉ l) ∧
    Store_reconcile setup st schema s =
      match setup (mkStore obs []) s2 with
      | None => None
      | Some (s3, None) => Some (mkStore obs [], s3, Exn)
      | Some (s3, Some l) => Some (mkStore obs l, s3, Ok vNone)
      end ∧
    HotReloadStore_reconcile setup st schema s =
      match setup (mkStore obs []) s2 with
      | None => None
      | Some (s3, None) => Some (mkStore obs [], s3, Ok vNone)
      | Some (s3, Some l) => Some (mkStore obs l, s3, Ok vNone)
      end.
Proof.
  intros Hi Hnd Hlt Hl.
  unfold Store_reconcile, HotReloadStore_reconcile, Store_dispose_reactions.
  destruct (Store_add_keys schema (_observables st) s) as [obs s1] eqn:E.
  destruct (Store_add_keys_spec _ _ _ _ _ E)
    as (Ha & Hv & Hic & Hdep & Hdis & Hinv & Hn).
  cbn [_reaction_disposers _observables].
  destruct (dispose_all (_reaction_disposers st) s1 (Hinv Hi))
    as (s2 & Hf & Hi2 & Hv2 & Hk2 & Hdis2 & Hdep2).
  { eapply Forall_impl; [exact Hl |]. intros d [Hk Hd]. split.
    - assert (d < id_counter s)%nat as Hd'.
      { apply (fresh_kinds s (inv_fresh s Hi)). destruct Hk as [-> | ->]; by eexists. }
      by destruct (Hv d Hd') as [_ ->].
    - by rewrite Hdep. }
  exists obs, s2. rewrite Hf. cbn [_observables].
  split_and!.
  - intros key o Ho. split; [by apply Ha |].
    rewrite Hv2. by destruct (Hv o (Hlt key o Ho)) as [-> _].
  - intros key default Hin Hnone. destruct (Hn Hnd key default Hin Hnone) as (o & ? & ?).
    exists o. split; [done |]. by rewrite Hv2.
  - intros d Hd. split; [by rewrite Hdis2, decide_True |].
    intros a l Ho Hin. destruct Hi2 as [[_ _ _ Hod _] _].
    destruct (Hod _ _ _ Ho Hin) as (l' & Hl' & Hal).
    rewrite Hdep2, decide_True in Hl' by done. injection Hl' as <-.
    by apply elem_of_nil in Hal.
  - unfold ok. by destruct (setup (mkStore obs []) s2) as [[s3 [l|]]|].
  - unfold ok. by destruct (setup (mkStore obs []) s2) as [[s3 [l|]]|].
Qed.

Lemma store_init_then_get_witness :
  let st := (Store_init demo_schema demo_initial initial_state).1 in
  let s' := (Store_init demo_schema demo_initial initial_state).2 in
  Store_get st "x" s' = ok s' (vInt 99) ∧
  Store_get st "y" s' = ok s' (vInt 20) ∧
  Store_get st "nope" s' = ok s' vNone.
Proof.
  intros st s'.
  destruct (store_init_then_get demo_schema demo_initial initial_state st s')
    as [H1 H2].
  - apply (bool_decide_unpack _). vm_compute. exact I.
  - reflexivity.
  - unfold st, s'. by destruct (Store_init demo_schema demo_initial initial_state).
  - split_and!.
    + apply (H1 "x"%string (vInt 10)). set_solver.
    + apply (H1 "y"%string (vInt 20)). set_solver.
    + destruct (H2 "nope"%string) as [H _]; [set_solver | exact H].
Defined.

Lemma demo_cells_ok : store_cells_ok demo_store demo_state.
Proof.
  apply (bool_decide_unpack
           (map_Forall (λ (_ : string) o,
              is_Some (values demo_state !! o) ∧
              is_Some (observers demo_state !! o))
              (_observables demo_store))).
  vm_compute. exact I.
Qed.

Lemma demo_live : Forall (live_reaction demo_state) (_reaction_disposers demo_store).
Proof.
  apply Forall_cons. split; [split | apply Forall_nil_2].
  - left. vm_compute. reflexivity.
  - vm_compute. by eexists.
Qed.

Lemma store_update_batches_witness :
  let rn := run 20 in
  let items := [("x"%string, vInt 1); ("nope"%string, vInt 3);
                ("y"%string, vInt 2)] in
  ∃ P,
    let s_mid :=
      with_pending P
        (with_values (body_values (items_body demo_store items)
                        (values demo_state))
           (begin_batch demo_state)) in
    Store_set_items rn demo_store items (begin_batch demo_state)
      = ok s_mid vNone ∧
    trace s_mid = trace demo_state ∧
    Store_update rn 20 demo_store items demo_state
      = _flush_pending rn 20 (with_batch_depth 0 s_mid).
Proof.
  intros rn items.
  apply (store_update_batches rn 20 demo_store items demo_state).
  - vm_compute. reflexivity.
  - apply demo_cells_ok.
Defined.

Lemma store_dispose_silences_witness :
  ∃ s1,
    Store_dispose demo_store demo_state
      = Some (mkStore (_observables demo_store) [], s1, Ok vNone) ∧
    values s1 = values demo_state ∧
    ∀ d, d ∈ _reaction_disposers demo_store →
         disposed s1 !! d = Some true ∧
         (∀ a obs, observers s1 !! a = Some obs → d ∉ obs) ∧
         (∀ n, run (S n) d s1 = ok s1 vNone).
Proof.
  apply (store_dispose_silences demo_store demo_state).
  - apply state_after_inv.
  - apply demo_live.
Defined.

Lemma store_reconcile_witness :
  let schema := [("x"%string, vInt 0); ("z"%string, vInt 7)] in
  ∃ obs s2,
    (∀ key o, _observables demo_store !! key = Some o →
       obs !! key = Some o ∧ values s2 !! o = values demo_state !! o) ∧
    (∀ key default, (key, default) ∈ schema →
       _observables demo_store !! key = None →
       ∃ o, obs !! key = Some o ∧ values s2 !! o = Some default) ∧
    (∀ d, d ∈ _reaction_disposers demo_store →
       disposed s2 !! d = Some true ∧
       ∀ a l, observers s2 !! a = Some l → d ∉ l) ∧
    Store_reconcile failing_setup demo_store schema demo_state =
      match failing_setup (mkStore obs []) s2 with
      | None => None
      | Some (s3, None) => Some (mkStore obs [], s3, Exn)
      | Some (s3, Some l) => Some (mkStore obs l, s3, Ok vNone)
      end ∧
    HotReloadStore_reconcile failing_setup demo_store schema demo_state =
      match failing_setup (mkStore obs []) s2 with
      | None => None
      | Some (s3, None) => Some (mkStore obs [], s3, Ok vNone)
      | Some (s3, Some l) => Some (mkStore obs l, s3, Ok vNone)
      end.
Proof.
  intros schema.
  apply (store_reconcile failing_setup demo_store schema demo_state).
  - apply state_after_inv.
  - apply (bool_decide_unpack _). vm_compute. exact I.
  - apply (bool_decide_unpack
             (map_Forall (λ (_ : string) (o : nat), (o < id_counter demo_state)%nat)
                (_observables demo_store))).
    vm_compute. exact I.
  - apply demo_live.
Defined.

(** ** An [end_batch] without its [begin_batch] *)

(** X15. [end_batch] does not guard the depth counter: called outside any
    batch it leaves the depth negative and flushes nothing, and from then on
    the next batching scope does not batch: inside it the depth is at most
    zero, so [schedule] runs a derivation at once instead of deferring it. *)
Theorem stray_end_batch_disables_batching rn n s :
  batch_depth s ≤ 0 →
  ∃ s1,
    end_batch rn n s = ok s1 vNone ∧
    batch_depth s1 = batch_depth s - 1 ∧
    pending s1 = pending s ∧ trace s1 = trace s ∧
    ∀ d, schedule rn d (begin_batch s1) = rn d (begin_batch s1).
Proof.
  intros Hd. exists (with_batch_depth (batch_depth s - 1) s).
  unfold end_batch, schedule. cbn [batch_depth with_batch_depth begin_batch].
  destruct (Z.eqb_spec (batch_depth s - 1) 0) as [E|_]; [lia |].
  split_and!; try done.
  intros d. by destruct (Z.ltb_spec 0 (batch_depth s - 1 + 1)); [lia |].
Qed.

Lemma stray_end_batch_disables_batching_witness :
  ∃ s1,
    end_batch (run 5) 5 initial_state = ok s1 vNone ∧
    batch_depth s1 = batch_depth initial_state - 1 ∧
    pending s1 = pending initial_state ∧ trace s1 = trace initial_state ∧
    ∀ d, schedule (run 5) d (begin_batch s1) = run 5 d (begin_batch s1).
Proof.
  apply (stray_end_batch_disables_batching (run 5) 5 initial_state).
  vm_compute. discriminate.
Defined.
